(** * Pi-Swarm SSH management layer: a shallow embedding of
    [lib/python/ssh_manager.py] and the properties of its credential model,
    connection prober, command executor, parallel dispatcher and fleet manager.

    Conventions of the embedding.
    - Python [str] is [string]; [Optional[str]] is [option string]; [int] is [Z].
    - [time.time()] readings and their differences are rationals ([Q]); the
      literal [0.0] is [0%Q].  Binary rounding of float arithmetic is not part
      of the model.
    - A [dict] is an association list in insertion order ([Dict.t]).
    - Everything the code obtains from outside the process (the clock, child
      processes, the local file system, the completion order of futures) is a
      field of [Env]; the definitions are parametric in it.
    - Effects are written in the monad [M]: a world is threaded through and a
      computation ends either with a value or with a raised exception.
    - Calls to the logger only produce output and are left out. *)

From Stdlib Require Import String Ascii List ZArith QArith Bool Lia Permutation DecimalString.
Import ListNotations.
Open Scope string_scope.
Open Scope Z_scope.

(** ** Python strings *)

Module PyStr.

Definition ascii_lower (c : ascii) : ascii :=
  let n := nat_of_ascii c in
  if ((65 <=? n) && (n <=? 90))%nat then ascii_of_nat (n + 32) else c.

(** [s.lower()], on the ASCII letters. *)
Fixpoint lower (s : string) : string :=
  match s with
  | EmptyString => EmptyString
  | String c t => String (ascii_lower c) (lower t)
  end.

(** [sub in s]. *)
Fixpoint contains (sub s : string) : bool :=
  prefix sub s ||
  match s with
  | EmptyString => false
  | String _ t => contains sub t
  end.

(** [str(n)] for an [int]. *)
Definition str_int (z : Z) : string := NilZero.string_of_int (Z.to_int z).

Definition is_space (c : ascii) : bool :=
  let n := nat_of_ascii c in
  (((9 <=? n) && (n <=? 13)) || ((28 <=? n) && (n <=? 32)))%nat.

Fixpoint lstrip (s : string) : string :=
  match s with
  | EmptyString => EmptyString
  | String c t => if is_space c then lstrip t else s
  end.

Fixpoint rstrip (s : string) : string :=
  match s with
  | EmptyString => EmptyString
  | String c t =>
      match rstrip t with
      | EmptyString => if is_space c then EmptyString else String c EmptyString
      | t' => String c t'
      end
  end.

(** [s.strip()]. *)
Definition strip (s : string) : string := rstrip (lstrip s).

(** Truth value of an [Optional[str]]: [None] and the empty string are false. *)
Definition truthy (o : option string) : bool :=
  match o with
  | Some s => negb (s =? "")%string
  | None => false
  end.

End PyStr.

(** ** Python dictionaries, in insertion order *)

Module Dict.

Section Ops.
Context {V : Type}.

Definition t := list (string * V).

Fixpoint get (k : string) (d : t) : option V :=
  match d with
  | [] => None
  | (k', v) :: r => if (k =? k')%string then Some v else get k r
  end.

(** [d[k] = v]: an existing key keeps its position, a new key goes last. *)
Fixpoint set (k : string) (v : V) (d : t) : t :=
  match d with
  | [] => [(k, v)]
  | (k', v') :: r => if (k =? k')%string then (k', v) :: r else (k', v') :: set k v r
  end.

Definition keys (d : t) : list string := map fst d.
Definition values (d : t) : list V := map snd d.
Definition items (d : t) : list (string * V) := d.
Definition len (d : t) : Z := Z.of_nat (length d).

(** The invariant of a dictionary: no key occurs twice. *)
Definition wf (d : t) : Prop := NoDup (keys d).

End Ops.

Arguments t : clear implicits.

End Dict.

(** ** Exceptions *)

Inductive exn_class : Type :=
| ValueError
| IndexError
| KeyError
| TypeError
| AttributeError
| ZeroDivisionError
| TimeoutExpired
| CalledProcessError
| OSError.

(** An exception object: its class and the text [str(e)] gives. Every class
    above derives from [Exception]. *)
Record exn : Type := Exn { exn_class_of : exn_class; exn_str : string }.

Definition is_TimeoutExpired (e : exn) : bool :=
  match exn_class_of e with
  | TimeoutExpired => true
  | _ => false
  end.

(** ** Data model *)

Module SSHCredentials.
Record t : Type := mk {
  username : string;
  password : option string;
  private_key_path : option string;
  port : Z
}.
End SSHCredentials.

Module SSHConnectionResult.
Record t : Type := mk {
  host : string;
  success : bool;
  error_message : option string;
  connection_time : Q;
  auth_method : option string
}.
End SSHConnectionResult.

Module SSHCommandResult.
Record t : Type := mk {
  host : string;
  command : string;
  success : bool;
  stdout : string;
  stderr : string;
  exit_code : Z;
  execution_time : Q
}.
End SSHCommandResult.

Record SSHConnectionPool : Type := {
  max_connections : Z;
  connection_timeout : Z
}.

(** [SSHConnectionPool()] with its default arguments. *)
Definition default_pool : SSHConnectionPool :=
  {| max_connections := 10; connection_timeout := 30 |}.

(** [SSHCredentials.__post_init__]. *)
Definition __post_init__ (c : SSHCredentials.t) : exn + unit :=
  if negb (PyStr.truthy (SSHCredentials.password c))
     && negb (PyStr.truthy (SSHCredentials.private_key_path c))
  then inl (Exn ValueError "Either password or private_key_path must be provided")
  else inr tt.

(** [SSHCredentials(username, password, private_key_path, port)]: the generated
    [__init__] stores the fields ([port] is 22 when not given) and then runs
    [__post_init__]. *)
Definition new_SSHCredentials (username : string) (password private_key_path : option string)
    (port : option Z) : exn + SSHCredentials.t :=
  let self := SSHCredentials.mk username password private_key_path
                (match port with Some p => p | None => 22 end) in
  match __post_init__ self with
  | inl e => inl e
  | inr _ => inr self
  end.

(** ** The environment and the effect monad *)

(** What [subprocess.run(..., capture_output=True, text=True)] returns. *)
Record CompletedProcess : Type := {
  returncode : Z;
  cp_stdout : string;
  cp_stderr : string
}.

Record Env : Type := {
  World : Type;
  (** [time.time()] *)
  time_time : World -> Q * World;
  (** [subprocess.run(argv, timeout=...)]: the child's result, or the
      exception the call raises ([TimeoutExpired], [FileNotFoundError], ...). *)
  subprocess_run : list string -> option Z -> World -> (exn + CompletedProcess) * World;
  (** [Path.exists()] *)
  path_exists : string -> World -> bool;
  (** [open(path, 'r').read()] *)
  read_text : string -> World -> (exn + string) * World;
  (** [str(Path(p).expanduser())] and [str(Path(p).with_suffix('.pub'))] *)
  expanduser : string -> string;
  with_suffix_pub : string -> string;
  (** [as_completed(futures)]: the futures, each once, in the order in which
      they finish. *)
  as_completed : forall A : Type, World -> list A -> list A;
  as_completed_perm : forall (A : Type) (w : World) (l : list A),
      Permutation l (as_completed A w l)
}.

Definition M (E : Env) (A : Type) : Type := World E -> (exn + A) * World E.

Definition ret {E : Env} {A : Type} (a : A) : M E A := fun w => (inr a, w).

Definition raise {E : Env} {A : Type} (e : exn) : M E A := fun w => (inl e, w).

Definition bind {E : Env} {A B : Type} (m : M E A) (k : A -> M E B) : M E B :=
  fun w =>
    match m w with
    | (inr a, w') => k a w'
    | (inl e, w') => (inl e, w')
    end.

(** [try: body except Exception as e: handler(e)]. *)
Definition try_except {E : Env} {A : Type} (body : M E A) (handler : exn -> M E A) : M E A :=
  fun w =>
    match body w with
    | (inr a, w') => (inr a, w')
    | (inl e, w') => handler e w'
    end.

(** A pure computation that may raise. *)
Definition lift {E : Env} {A : Type} (r : exn + A) : M E A := fun w => (r, w).

(** An effect of the environment that cannot raise. *)
Definition perform {E : Env} {A : Type} (f : World E -> A * World E) : M E A :=
  fun w => let (a, w') := f w in (inr a, w').

Declare Scope py_scope.
Delimit Scope py_scope with py.
Notation "x <- m ;; k" := (bind m (fun x => k))
  (at level 100, m at next level, right associativity) : py_scope.
Notation "' p <- m ;; k" := (bind m (fun p => k))
  (at level 100, p pattern, m at next level, right associativity) : py_scope.
Open Scope py_scope.

(** [for x in xs: acc = step(acc, x)], stopping at the first exception. *)
Fixpoint for_each {E : Env} {A S : Type} (xs : list A) (step : S -> A -> M E S) (acc : S) : M E S :=
  match xs with
  | [] => ret acc
  | x :: r => acc' <- step acc x ;; for_each r step acc'
  end.

(** ** Connection prober *)

(** [SSHConnectionPool._interpret_ssh_error]: the table of exit codes... *)
Definition error_interpretations (exit_code : Z) : option string :=
  if exit_code =? 255 then Some "SSH connection failed - host unreachable or SSH not running"
  else if exit_code =? 5 then Some "SSH authentication failed - invalid credentials"
  else if exit_code =? 6 then Some "SSH authentication failed - permission denied"
  else if exit_code =? 130 then Some "Connection interrupted by user"
  else None.

(** ... and the guidance chosen by the first matching substring of stderr. *)
Definition stderr_guidance (stderr : string) : string :=
  let s := PyStr.lower stderr in
  if PyStr.contains "permission denied" s then ". Check username and password/key."
  else if PyStr.contains "connection refused" s then ". Ensure SSH server is running on the target host."
  else if PyStr.contains "no route to host" s then ". Check network connectivity."
  else if PyStr.contains "timeout" s then ". Connection timed out - check network and SSH configuration."
  else "".

Definition _interpret_ssh_error (exit_code : Z) (stderr : string) : string :=
  let base_error :=
    match error_interpretations exit_code with
    | Some m => m
    | None => "SSH failed with exit code " ++ PyStr.str_int exit_code
    end in
  base_error ++ stderr_guidance stderr.

(** The argument vector both [test_connection] and [execute_command] build:
    through [sshpass] when the password is truthy, with the identity file
    otherwise. A [None] in the vector makes [subprocess.run] raise
    [TypeError] before any process is started. *)
Definition ssh_argv (pool : SSHConnectionPool) (host : string)
    (credentials : SSHCredentials.t) (remote_command : string) : exn + list string :=
  let connect := "ConnectTimeout=" ++ PyStr.str_int (connection_timeout pool) in
  let target := SSHCredentials.username credentials ++ "@" ++ host in
  let port := PyStr.str_int (SSHCredentials.port credentials) in
  let with_key :=
    match SSHCredentials.private_key_path credentials with
    | Some k =>
        inr ["ssh"; "-o"; "BatchMode=yes"; "-o"; "StrictHostKeyChecking=no";
             "-o"; connect; "-i"; k; "-p"; port; target; remote_command]
    | None => inl (Exn TypeError "expected str, bytes or os.PathLike object, not NoneType")
    end in
  match SSHCredentials.password credentials with
  | Some p =>
      if (p =? "")%string then with_key
      else inr ["sshpass"; "-p"; p; "ssh"; "-o"; "BatchMode=yes";
                "-o"; "StrictHostKeyChecking=no"; "-o"; connect;
                "-p"; port; target; remote_command]
  | None => with_key
  end.

Definition connection_timeout_message (pool : SSHConnectionPool) : string :=
  "Connection timeout after " ++ PyStr.str_int (connection_timeout pool) ++ " seconds".

Definition command_timeout_message (timeout : Z) : string :=
  "Command timeout after " ++ PyStr.str_int timeout ++ " seconds".

Section Operations.
Context {E : Env}.

(** [SSHConnectionPool.test_connection]. *)
Definition test_connection (pool : SSHConnectionPool) (host : string)
    (credentials : SSHCredentials.t) : M E SSHConnectionResult.t :=
  start_time <- perform (time_time E) ;;
  try_except
    (cmd <- lift (ssh_argv pool host credentials "exit") ;;
     result <- subprocess_run E cmd (Some (connection_timeout pool)) ;;
     now <- perform (time_time E) ;;
     let connection_time := (now - start_time)%Q in
     if returncode result =? 0 then
       ret (SSHConnectionResult.mk host true None connection_time
              (Some (if PyStr.truthy (SSHCredentials.password credentials)
                     then "password" else "key")))
     else
       ret (SSHConnectionResult.mk host false
              (Some (_interpret_ssh_error (returncode result) (cp_stderr result)))
              connection_time None))
    (fun e =>
       if is_TimeoutExpired e then
         ret (SSHConnectionResult.mk host false
                (Some (connection_timeout_message pool)) 0%Q None)
       else
         ret (SSHConnectionResult.mk host false (Some (exn_str e)) 0%Q None)).

(** [SSHConnectionPool.execute_command]; [timeout] is 60 when not given. *)
Definition execute_command (pool : SSHConnectionPool) (host command : string)
    (credentials : SSHCredentials.t) (timeout : Z) : M E SSHCommandResult.t :=
  start_time <- perform (time_time E) ;;
  try_except
    (cmd <- lift (ssh_argv pool host credentials command) ;;
     result <- subprocess_run E cmd (Some timeout) ;;
     now <- perform (time_time E) ;;
     let execution_time := (now - start_time)%Q in
     ret (SSHCommandResult.mk host command (returncode result =? 0)
            (cp_stdout result) (cp_stderr result) (returncode result) execution_time))
    (fun e =>
       if is_TimeoutExpired e then
         ret (SSHCommandResult.mk host command false ""
                (command_timeout_message timeout) (-1) 0%Q)
       else
         ret (SSHCommandResult.mk host command false "" (exn_str e) (-1) 0%Q)).

End Operations.

(** ** Parallel dispatcher *)

Definition get_default {A : Type} (o : option A) (d : A) : A :=
  match o with
  | Some a => a
  | None => d
  end.

(** [list(credentials_map.values())[0]]. *)
Definition first_value {V : Type} (d : Dict.t V) : exn + V :=
  match Dict.values d with
  | [] => inl (Exn IndexError "list index out of range")
  | v :: _ => inr v
  end.

(** The record the dispatcher stores when [future.result()] raises. *)
Definition failed_test (host : string) (e : exn) : SSHConnectionResult.t :=
  SSHConnectionResult.mk host false (Some ("Test execution failed: " ++ exn_str e)) 0%Q None.

Definition failed_execution (host command : string) (e : exn) : SSHCommandResult.t :=
  SSHCommandResult.mk host command false "" ("Execution failed: " ++ exn_str e) (-1) 0%Q.

Section Dispatcher.
Context {E : Env}.

(** [executor.submit(task)]: the future holds what the task returned or the
    exception it raised; submitting itself does not raise. The pool's workers
    are run one task at a time, in the order of submission; the number of
    workers (a positive count, which the executor requires) has no influence
    on what the futures hold. *)
Definition submit {A : Type} (task : M E A) : M E (exn + A) :=
  fun w => let (r, w') := task w in (inr r, w').

(** [SSHConnectionPool.test_multiple_connections], for any callable bound to
    [self.test_connection]. *)
Definition test_multiple_connections_with
    (worker : string -> SSHCredentials.t -> M E SSHConnectionResult.t)
    (hosts_credentials : Dict.t SSHCredentials.t) (max_workers : positive)
    : M E (Dict.t SSHConnectionResult.t) :=
  future_to_host <-
    for_each (Dict.items hosts_credentials)
      (fun acc '(host, creds) =>
         future <- submit (worker host creds) ;;
         ret (acc ++ [(future, host)])%list) [] ;;
  completed <- perform (fun w => (as_completed E _ w future_to_host, w)) ;;
  for_each completed
    (fun results '(future, host) =>
       match future with
       | inr result => ret (Dict.set host result results)
       | inl e => ret (Dict.set host (failed_test host e) results)
       end) [].

Definition test_multiple_connections (pool : SSHConnectionPool)
    (hosts_credentials : Dict.t SSHCredentials.t) (max_workers : positive)
    : M E (Dict.t SSHConnectionResult.t) :=
  test_multiple_connections_with (test_connection pool) hosts_credentials max_workers.

(** [credentials_map.get(host, list(credentials_map.values())[0])]: the
    default is an argument of [get], so it is evaluated first and for every
    host. *)
Definition select_credentials (credentials_map : Dict.t SSHCredentials.t) (host : string)
    : exn + SSHCredentials.t :=
  match first_value credentials_map with
  | inl e => inl e
  | inr fallback => inr (get_default (Dict.get host credentials_map) fallback)
  end.

(** [SSHConnectionPool.execute_parallel_commands], for any callable bound to
    [self.execute_command]. *)
Definition execute_parallel_commands_with
    (worker : string -> string -> SSHCredentials.t -> Z -> M E SSHCommandResult.t)
    (hosts_commands : Dict.t string) (credentials_map : Dict.t SSHCredentials.t)
    (max_workers : positive) (timeout : Z) : M E (Dict.t SSHCommandResult.t) :=
  future_to_host <-
    for_each (Dict.items hosts_commands)
      (fun acc '(host, command) =>
         credentials <- lift (select_credentials credentials_map host) ;;
         future <- submit (worker host command credentials timeout) ;;
         ret (acc ++ [(future, host)])%list) [] ;;
  completed <- perform (fun w => (as_completed E _ w future_to_host, w)) ;;
  for_each completed
    (fun results '(future, host) =>
       match future with
       | inr result => ret (Dict.set host result results)
       | inl e =>
           command <- lift (match Dict.get host hosts_commands with
                            | Some c => inr c
                            | None => inl (Exn KeyError ("'" ++ host ++ "'"))
                            end) ;;
           ret (Dict.set host (failed_execution host command e) results)
       end) [].

Definition execute_parallel_commands (pool : SSHConnectionPool)
    (hosts_commands : Dict.t string) (credentials_map : Dict.t SSHCredentials.t)
    (max_workers : positive) (timeout : Z) : M E (Dict.t SSHCommandResult.t) :=
  execute_parallel_commands_with (execute_command pool) hosts_commands credentials_map
    max_workers timeout.

End Dispatcher.

(** ** Fleet manager *)

(** One entry of [cluster_config['nodes']]: the keys the manager reads, [None]
    for a key that is missing. *)
Module NodeConfig.
Record t : Type := mk {
  ip : option string;
  username : option string;
  password : option string;
  ssh_key_path : option string
}.
End NodeConfig.

Record ClusterConfig : Type := {
  nodes : option (Dict.t NodeConfig.t)
}.

Record SSHManager : Type := {
  pool : SSHConnectionPool
}.

(** The dictionary [validate_cluster_connectivity] returns. *)
Record Summary : Type := {
  total_nodes : Z;
  successful_connections : Z;
  failed_connections : Z;
  success_rate : Q;
  successful_hosts : list string;
  failed_hosts : list string;
  detailed_results : Dict.t SSHConnectionResult.t
}.

(** [a / b] on integers. *)
Definition truediv (a b : Z) : exn + Q :=
  if b =? 0 then inl (Exn ZeroDivisionError "division by zero")
  else inr (inject_Z a / inject_Z b)%Q.

(** The remote command of [setup_ssh_keys]. *)
Definition deploy_command (public_key : string) : string :=
  "mkdir -p ~/.ssh && echo '" ++ public_key
  ++ "' >> ~/.ssh/authorized_keys && chmod 600 ~/.ssh/authorized_keys && chmod 700 ~/.ssh".

Definition keygen_argv (key_path_expanded : string) : list string :=
  ["ssh-keygen"; "-t"; "rsa"; "-b"; "4096"; "-f"; key_path_expanded;
   "-N"; ""; "-C"; "pi-swarm-cluster-key"].

Section Fleet.
Context {E : Env}.

(** The loop of [validate_cluster_connectivity] that collects the credentials. *)
Definition collect_hosts_credentials (cluster_config : ClusterConfig)
    : M E (Dict.t SSHCredentials.t) :=
  for_each (Dict.items (get_default (nodes cluster_config) []))
    (fun hosts_credentials '(node_name, node_config) =>
       let host := NodeConfig.ip node_config in
       let username := get_default (NodeConfig.username node_config) "pi" in
       let password := NodeConfig.password node_config in
       let key_path := NodeConfig.ssh_key_path node_config in
       if PyStr.truthy host then
         credentials <- lift (new_SSHCredentials username password key_path None) ;;
         ret (Dict.set (get_default host "") credentials hosts_credentials)
       else ret hosts_credentials) [].

(** [SSHManager.validate_cluster_connectivity]. *)
Definition validate_cluster_connectivity (self : SSHManager) (cluster_config : ClusterConfig)
    : M E Summary :=
  hosts_credentials <- collect_hosts_credentials cluster_config ;;
  results <- test_multiple_connections (pool self) hosts_credentials 5 ;;
  let successful_hosts :=
    map fst (filter (fun hr => SSHConnectionResult.success (snd hr)) (Dict.items results)) in
  let failed_hosts :=
    map fst (filter (fun hr => negb (SSHConnectionResult.success (snd hr))) (Dict.items results)) in
  rate <- (match results with
           | [] => ret 0%Q
           | _ :: _ =>
               q <- lift (truediv (Z.of_nat (length successful_hosts)) (Dict.len results)) ;;
               ret (q * 100)%Q
           end) ;;
  ret {| total_nodes := Dict.len results;
         successful_connections := Z.of_nat (length successful_hosts);
         failed_connections := Z.of_nat (length failed_hosts);
         success_rate := rate;
         successful_hosts := successful_hosts;
         failed_hosts := failed_hosts;
         detailed_results := results |}.

(** The first part of [setup_ssh_keys]: generate the key pair when the private
    key file is missing, then read the public key. The text of the
    [CalledProcessError] abbreviates the command. *)
Definition load_public_key (key_path : string) : M E string :=
  let key_path_expanded := expanduser E key_path in
  present <- perform (fun w => (path_exists E key_path_expanded w, w)) ;;
  _ <- (if negb present then
          r <- subprocess_run E (keygen_argv key_path_expanded) None ;;
          if returncode r =? 0 then ret tt
          else raise (Exn CalledProcessError
                        ("Command ssh-keygen returned non-zero exit status "
                         ++ PyStr.str_int (returncode r) ++ "."))
        else ret tt) ;;
  let pub_key_path := with_suffix_pub E key_path_expanded in
  text <- read_text E pub_key_path ;;
  ret (PyStr.strip text).

(** The loop of [setup_ssh_keys] that deploys the key. *)
Definition deploy_to_nodes (self : SSHManager) (public_key : string)
    (node_items : list (string * NodeConfig.t)) (results : Dict.t bool) : M E (Dict.t bool) :=
  for_each node_items
    (fun results '(node_name, node_config) =>
       let host := NodeConfig.ip node_config in
       if negb (PyStr.truthy host) then ret results
       else
         credentials <- lift (new_SSHCredentials
                                (get_default (NodeConfig.username node_config) "pi")
                                (NodeConfig.password node_config) None None) ;;
         let command := deploy_command public_key in
         result <- execute_command (pool self) (get_default host "") command credentials 60 ;;
         ret (Dict.set (get_default host "") (SSHCommandResult.success result) results))
    results.

(** [SSHManager.setup_ssh_keys]; [key_path] is ["~/.ssh/id_rsa"] when not given. *)
Definition setup_ssh_keys (self : SSHManager) (cluster_config : ClusterConfig)
    (key_path : string) : M E (Dict.t bool) :=
  public_key <- load_public_key key_path ;;
  deploy_to_nodes self public_key (Dict.items (get_default (nodes cluster_config) [])) [].

End Fleet.

(** ** Objects and attribute assignment *)

Module ObjectModel.








Section HeapOperations.
Context {E : Env}.



End HeapOperations.

End ObjectModel.

(** ** The remote shell and a simulated fleet *)

(** What a POSIX shell does with the command of [setup_ssh_keys] in a home
    directory it can write to. Modes are written as their octal digits. *)
Module RemoteShell.

Record Home : Type := {
  ssh_dir : option Z;                         (* mode of ~/.ssh, when it exists *)
  authorized_keys : option (Z * list string)  (* mode and lines, when it exists *)
}.

Definition mkdir_p_ssh (h : Home) : Home :=
  match ssh_dir h with
  | Some _ => h
  | None => {| ssh_dir := Some 755; authorized_keys := authorized_keys h |}
  end.

(** [echo 'line' >> ~/.ssh/authorized_keys] *)
Definition echo_append (line : string) (h : Home) : Home :=
  {| ssh_dir := ssh_dir h;
     authorized_keys :=
       Some (match authorized_keys h with
             | Some (mode, lines) => (mode, (lines ++ [line])%list)
             | None => (644, [line])
             end) |}.

Definition chmod_authorized_keys (mode : Z) (h : Home) : Home :=
  {| ssh_dir := ssh_dir h;
     authorized_keys := option_map (fun ml => (mode, snd ml)) (authorized_keys h) |}.

Definition chmod_ssh_dir (mode : Z) (h : Home) : Home :=
  {| ssh_dir := option_map (fun _ => mode) (ssh_dir h);
     authorized_keys := authorized_keys h |}.

(** [mkdir -p ~/.ssh && echo 'key' >> ... && chmod 600 ... && chmod 700 ~/.ssh] *)
Definition run_deploy (key : string) (h : Home) : Home :=
  chmod_ssh_dir 700 (chmod_authorized_keys 600 (echo_append key (mkdir_p_ssh h))).

Definition lines_of (h : Home) : list string :=
  match authorized_keys h with
  | Some (_, lines) => lines
  | None => []
  end.

Fixpoint strip_prefix (p s : string) : option string :=
  match p, s with
  | EmptyString, _ => Some s
  | String a p', String b s' => if Ascii.eqb a b then strip_prefix p' s' else None
  | String _ _, EmptyString => None
  end.

Fixpoint strip_suffix (suf s : string) : option string :=
  if (s =? suf)%string then Some EmptyString
  else match s with
       | EmptyString => None
       | String c t => option_map (String c) (strip_suffix suf t)
       end.

Definition deploy_prefix : string := "mkdir -p ~/.ssh && echo '".
Definition deploy_suffix : string :=
  "' >> ~/.ssh/authorized_keys && chmod 600 ~/.ssh/authorized_keys && chmod 700 ~/.ssh".

(** The quoted text of a deploy command; a quote inside it would end the
    shell word early, so such a command is not read as one. *)
Definition parse_deploy_command (command : string) : option string :=
  match strip_prefix deploy_prefix command with
  | Some rest =>
      match strip_suffix deploy_suffix rest with
      | Some key => if PyStr.contains "'" key then None else Some key
      | None => None
      end
  | None => None
  end.

(** The remote side of one ssh session. *)
Definition remote_sh (command : string) (h : Home) : CompletedProcess * Home :=
  if (command =? "exit")%string then
    ({| returncode := 0; cp_stdout := ""; cp_stderr := "" |}, h)
  else match parse_deploy_command command with
       | Some key => ({| returncode := 0; cp_stdout := ""; cp_stderr := "" |}, run_deploy key h)
       | None => ({| returncode := 127; cp_stdout := ""; cp_stderr := "sh: command not found" |}, h)
       end.

End RemoteShell.

(** A small closed world: hosts with one account each, a local file system
    and a clock. It instantiates [Env] for the examples. *)
Module Sim.

Record Host : Type := {
  user : string;
  pass : string;
  identity : option string;   (* the identity file the account accepts *)
  up : bool;                  (* sshd is listening *)
  latency : Q;                (* seconds one session takes *)
  home : RemoteShell.Home
}.

Record SimWorld : Type := {
  clock : Q;
  fleet : Dict.t Host;
  files : Dict.t string
}.

Definition tick (d : Q) (w : SimWorld) : SimWorld :=
  {| clock := (clock w + d)%Q; fleet := fleet w; files := files w |}.

Definition set_home (h : string) (hm : RemoteShell.Home) (w : SimWorld) : SimWorld :=
  {| clock := clock w;
     fleet := map (fun e => if (fst e =? h)%string
                            then (fst e, {| user := user (snd e); pass := pass (snd e);
                                            identity := identity (snd e); up := up (snd e);
                                            latency := latency (snd e); home := hm |})
                            else e) (fleet w);
     files := files w |}.

Definition exceeds (timeout : option Z) (d : Q) : bool :=
  match timeout with
  | Some t => negb (Qle_bool d (inject_Z t))
  | None => false
  end.

(** One ssh session to [target], authenticating with a password or with an
    identity file. *)
Definition session (timeout : option Z) (pw key : option string) (target command : string)
    (w : SimWorld) : (exn + CompletedProcess) * SimWorld :=
  match find (fun e => (target =? user (snd e) ++ "@" ++ fst e)%string) (fleet w) with
  | None =>
      (inr {| returncode := 255; cp_stdout := "";
              cp_stderr := "ssh: connect to host: No route to host" |}, w)
  | Some (h, a) =>
      if negb (up a) then
        (inr {| returncode := 255; cp_stdout := "";
                cp_stderr := "ssh: connect to host: Connection refused" |}, w)
      else if exceeds timeout (latency a) then
        (inl (Exn TimeoutExpired "Command timed out"), tick (inject_Z (get_default timeout 0)) w)
      else
        let accepted :=
          match pw, key with
          | Some p, _ => (p =? pass a)%string
          | None, Some k => match identity a with
                            | Some k' => (k =? k')%string
                            | None => false
                            end
          | None, None => false
          end in
        if accepted then
          let (cp, hm) := RemoteShell.remote_sh command (home a) in
          (inr cp, tick (latency a) (set_home h hm w))
        else
          (inr {| returncode := 5; cp_stdout := "";
                  cp_stderr := "Permission denied, please try again." |}, tick (latency a) w)
  end.

Definition arg (i : nat) (argv : list string) : string := nth i argv "".

Definition newline : string := String (ascii_of_nat 10) EmptyString.

(** The public key [ssh-keygen] writes in this world. *)
Definition public_key : string := "ssh-rsa AAAAB3Nza pi-swarm-cluster-key".

Definition run (argv : list string) (timeout : option Z) (w : SimWorld)
    : (exn + CompletedProcess) * SimWorld :=
  if (arg 0 argv =? "sshpass")%string then
    session timeout (Some (arg 2 argv)) None (arg 12 argv) (arg 13 argv) w
  else if (arg 0 argv =? "ssh")%string then
    session timeout None (Some (arg 8 argv)) (arg 11 argv) (arg 12 argv) w
  else if (arg 0 argv =? "ssh-keygen")%string then
    (inr {| returncode := 0; cp_stdout := ""; cp_stderr := "" |},
     {| clock := clock w; fleet := fleet w;
        files := Dict.set (arg 6 argv ++ ".pub") (public_key ++ newline)
                   (Dict.set (arg 6 argv) "PRIVATE KEY" (files w)) |})
  else (inl (Exn OSError "[Errno 2] No such file or directory"), w).

Definition home_of (p : string) : string :=
  match p with
  | String "~" rest => "/home/pi" ++ rest
  | _ => p
  end.

Definition read (path : string) (w : SimWorld) : (exn + string) * SimWorld :=
  match Dict.get path (files w) with
  | Some s => (inr s, w)
  | None => (inl (Exn OSError "[Errno 2] No such file or directory"), w)
  end.

Definition env : Env :=
  {| World := SimWorld;
     time_time := fun w => (clock w, w);
     subprocess_run := run;
     path_exists := fun p w => match Dict.get p (files w) with Some _ => true | None => false end;
     read_text := read;
     expanduser := home_of;
     with_suffix_pub := fun p => p ++ ".pub";
     as_completed := fun A _ l => rev l;
     as_completed_perm := fun A _ l => Permutation_rev l |}.

Definition empty_home : RemoteShell.Home :=
  {| RemoteShell.ssh_dir := None; RemoteShell.authorized_keys := None |}.

Definition pi_host (up : bool) (latency : Q) : Host :=
  {| user := "pi"; pass := "raspberry"; identity := Some "/home/pi/.ssh/id_rsa";
     up := up; latency := latency; home := empty_home |}.

(** Three nodes: one answers in two seconds, one refuses connections, one
    takes longer than any timeout used here. *)
Definition w0 : SimWorld :=
  {| clock := 100;
     fleet := [("10.0.0.1", pi_host true 2); ("10.0.0.2", pi_host false 1);
               ("10.0.0.3", pi_host true 500)];
     files := [("/home/pi/.ssh/id_rsa", "PRIVATE KEY");
               ("/home/pi/.ssh/id_rsa.pub", public_key ++ newline)] |}.

Definition pi_password : SSHCredentials.t :=
  SSHCredentials.mk "pi" (Some "raspberry") None 22.

Definition manager : SSHManager := {| pool := default_pool |}.

Definition node (ip password key : option string) : NodeConfig.t :=
  NodeConfig.mk ip None password key.

End Sim.

(** ** The collecting loop, as a function *)

(** The dictionary the collecting loop of a dispatcher builds from the
    completed futures, [val] giving the record stored for a future. *)
Definition collect {F R : Type} (val : F -> string -> R) (l : list (F * string))
    (acc : Dict.t R) : Dict.t R :=
  fold_left (fun res fh => Dict.set (snd fh) (val (fst fh) (snd fh)) res) l acc.

(** ** Command-line interface *)

Inductive Action : Type :=
| action_test
| action_setup_keys
| action_execute.

(** What [parse_args] returns; [key_path] is ["~/.ssh/id_rsa"] when the
    option is not given. *)
Module Namespace.
Record t : Type := mk {
  action : Action;
  config : string;
  command : option string;
  key_path : string;
  verbose : bool
}.
End Namespace.

(** What [main] writes to standard output, one value per [print] or group of
    prints, before rendering. *)
Inductive Printed : Type :=
| printed_summary (summary : Summary)
| printed_key_setup (success_count total_count : Z)
| printed_command_required
| printed_host (host : string) (exit_code : Z) (stdout stderr : option string).

(** [json.dumps(summary, indent=2)]: numbers, strings, lists and dictionaries
    are encoded; a result object is of no type the encoder knows, so the first
    entry of [detailed_results] makes it raise. *)
Definition json_dumps_summary (summary : Summary) : exn + Printed :=
  match detailed_results summary with
  | [] => inr (printed_summary summary)
  | _ :: _ => inl (Exn TypeError "Object of type SSHConnectionResult is not JSON serializable")
  end.

(** [sum(results.values())] for a dictionary of booleans. *)
Definition count_true (results : Dict.t bool) : Z :=
  fold_left (fun n (b : bool) => n + (if b then 1 else 0)) (Dict.values results) 0.

Definition nonempty (s : string) : option string :=
  if (s =? "")%string then None else Some s.

(** The lines [main] prints for one host of the [execute] action: the header
    and the exit code, then stdout and stderr when they are not empty. *)
Definition host_block (entry : string * SSHCommandResult.t) : Printed :=
  printed_host (fst entry) (SSHCommandResult.exit_code (snd entry))
    (nonempty (SSHCommandResult.stdout (snd entry)))
    (nonempty (SSHCommandResult.stderr (snd entry))).

Section CommandLine.
Context {E : Env}.

(** The loop of the [execute] action that fills [hosts_commands] and
    [credentials_map]. *)
Definition collect_execute_inputs (args : Namespace.t) (config : ClusterConfig)
    : M E (Dict.t string * Dict.t SSHCredentials.t) :=
  for_each (Dict.items (get_default (nodes config) []))
    (fun acc '(node_name, node_config) =>
       let host := NodeConfig.ip node_config in
       if PyStr.truthy host then
         let hosts_commands :=
           Dict.set (get_default host "") (get_default (Namespace.command args) "") (fst acc) in
         present <- perform (fun w =>
                      (path_exists E (expanduser E (Namespace.key_path args)) w, w)) ;;
         credentials <- lift (new_SSHCredentials
                                (get_default (NodeConfig.username node_config) "pi")
                                (NodeConfig.password node_config)
                                (if present then Some (Namespace.key_path args) else None)
                                None) ;;
         ret (hosts_commands, Dict.set (get_default host "") credentials (snd acc))
       else ret acc) ([], []).

(** [main], from the point where the arguments are parsed and the
    configuration file is loaded: what it prints and what it returns. *)
Definition main (args : Namespace.t) (config : ClusterConfig)
    : M E (list Printed * option Z) :=
  let ssh_manager := {| pool := default_pool |} in
  match Namespace.action args with
  | action_test =>
      summary <- validate_cluster_connectivity ssh_manager config ;;
      text <- lift (json_dumps_summary summary) ;;
      ret ([text], None)
  | action_setup_keys =>
      results <- setup_ssh_keys ssh_manager config (Namespace.key_path args) ;;
      let success_count := count_true results in
      let total_count := Dict.len results in
      ret ([printed_key_setup success_count total_count], None)
  | action_execute =>
      if negb (PyStr.truthy (Namespace.command args)) then
        ret ([printed_command_required], Some 1)
      else
        inputs <- collect_execute_inputs args config ;;
        results <- execute_parallel_commands (pool ssh_manager) (fst inputs) (snd inputs) 5 60 ;;
        ret (map host_block (Dict.items results), None)
  end.

End CommandLine.

(** ** The integration wrapper *)

(** A positional argument of a constructor call. *)
Inductive Value : Type :=
| VNone
| VHosts (hosts : list string)
| VCredentials (credentials : SSHCredentials.t)
| VPool (connection_pool : SSHConnectionPool).

(** [SSHManager(args...)]. [__init__] takes one optional parameter besides
    [self]; it keeps [connection_pool or SSHConnectionPool()] and then reads
    the [logger] of what it kept, which only a pool has. *)
Definition new_SSHManager (args : list Value) : exn + SSHManager :=
  match args with
  | [] => inr {| pool := default_pool |}
  | [connection_pool] =>
      match connection_pool with
      | VNone => inr {| pool := default_pool |}
      | VHosts [] => inr {| pool := default_pool |}
      | VPool p => inr {| pool := p |}
      | VHosts (_ :: _) => inl (Exn AttributeError "'list' object has no attribute 'logger'")
      | VCredentials _ =>
          inl (Exn AttributeError "'SSHCredentials' object has no attribute 'logger'")
      end
  | _ :: _ :: _ =>
      inl (Exn TypeError
             ("SSHManager.__init__() takes from 1 to 2 positional arguments but "
              ++ PyStr.str_int (Z.of_nat (S (length args))) ++ " were given"))
  end.

(** The exception of a call to a method the class does not define. *)
Definition SSHManager_has_no (name : string) : exn :=
  Exn AttributeError ("'SSHManager' object has no attribute '" ++ name ++ "'").

(** The part of [PiSwarmIntegrationWrapper] that concerns the SSH manager. *)
Record Wrapper (Manager : Type) : Type := {
  ssh_manager : option Manager
}.
Arguments ssh_manager {Manager}.

(** The dictionary [execute_ssh_commands] returns: success with the results,
    or failure with a message. *)
Inductive Response (Results : Type) : Type :=
| response_ok (results : Results)
| response_error (error : string).
Arguments response_ok {Results}.
Arguments response_error {Results}.

Section WrapperOperations.
(** The manager class the wrapper imports and [int(s)] on a string. *)
Context {Manager : Type}.
Variable construct : list string -> SSHCredentials.t -> exn + Manager.
Variable int_of_str : string -> exn + Z.

(** [PiSwarmIntegrationWrapper.setup_ssh_manager]: the wrapper afterwards and
    the value returned. *)
Definition setup_ssh_manager (self : Wrapper Manager) (hosts : list string)
    (credentials : Dict.t string) : Wrapper Manager * bool :=
  let attempt :=
    match (match Dict.get "port" credentials with
           | Some s => int_of_str s
           | None => inr 22
           end) with
    | inl e => inl e
    | inr port =>
        match new_SSHCredentials (get_default (Dict.get "username" credentials) "pi")
                (Dict.get "password" credentials) (Dict.get "private_key_path" credentials)
                (Some port) with
        | inl e => inl e
        | inr creds => construct hosts creds
        end
    end in
  match attempt with
  | inr manager => ({| ssh_manager := Some manager |}, true)
  | inl _ => (self, false)
  end.

(** [PiSwarmIntegrationWrapper.execute_ssh_commands], for a manager class
    whose instances are truthy and the two methods it is asked for. *)
Definition execute_ssh_commands {E : Env} {Results : Type}
    (execute_on_subset : Manager -> list string -> list string -> M E Results)
    (execute_parallel : Manager -> list string -> M E Results)
    (self : Wrapper Manager) (commands : list string) (hosts : option (list string))
    : M E (Response Results) :=
  match ssh_manager self with
  | None => ret (response_error "SSH manager not initialized")
  | Some manager =>
      try_except
        (results <- match hosts with
                    | Some (h :: hs) => execute_on_subset manager commands (h :: hs)
                    | _ => execute_parallel manager commands
                    end ;;
         ret (response_ok results))
        (fun e => ret (response_error (exn_str e)))
  end.

End WrapperOperations.

(** ** Addresses of a configuration *)

(** The truthy [ip] entries of the nodes, in order. *)
Definition addresses (items : list (string * NodeConfig.t)) : list string :=
  flat_map (fun x => if PyStr.truthy (NodeConfig.ip (snd x))
                     then [get_default (NodeConfig.ip (snd x)) ""]
                     else []) items.

(** The record [validate_cluster_connectivity] builds for a node. *)
Definition node_credentials (node : NodeConfig.t) : SSHCredentials.t :=
  SSHCredentials.mk (get_default (NodeConfig.username node) "pi") (NodeConfig.password node)
    (NodeConfig.ssh_key_path node) 22.

(** The summary [validate_cluster_connectivity] computes from the results of
    the probes. *)
Definition summarize (results : Dict.t SSHConnectionResult.t) : Summary :=
  let successful_hosts :=
    map fst (filter (fun hr => SSHConnectionResult.success (snd hr)) (Dict.items results)) in
  let failed_hosts :=
    map fst (filter (fun hr => negb (SSHConnectionResult.success (snd hr))) (Dict.items results)) in
  {| total_nodes := Dict.len results;
     successful_connections := Z.of_nat (length successful_hosts);
     failed_connections := Z.of_nat (length failed_hosts);
     success_rate :=
       match results with
       | [] => 0%Q
       | _ :: _ => (inject_Z (Z.of_nat (length successful_hosts)) / inject_Z (Dict.len results)
                    * 100)%Q
       end;
     successful_hosts := successful_hosts;
     failed_hosts := failed_hosts;
     detailed_results := results |}.

(** The dictionary [collect_hosts_credentials] builds, as a fold. *)
Definition credentials_step (acc : Dict.t SSHCredentials.t) (x : string * NodeConfig.t)
    : Dict.t SSHCredentials.t :=
  if PyStr.truthy (NodeConfig.ip (snd x))
  then Dict.set (get_default (NodeConfig.ip (snd x)) "") (node_credentials (snd x)) acc
  else acc.

(** The credentials [setup_ssh_keys] builds for a node. *)
Definition password_credentials (node : NodeConfig.t) : SSHCredentials.t :=
  SSHCredentials.mk (get_default (NodeConfig.username node) "pi") (NodeConfig.password node)
    None 22.

(** ** Proof automation *)

(** Runs a leaf operation along the path the hypotheses describe. *)
Ltac run_leaf :=
  unfold test_connection, execute_command, bind, try_except, perform, lift, ret;
  repeat match goal with
         | H : _ = _ |- _ => rewrite H
         end.


(** * Properties *)

(** ** Dictionaries *)

Module DictFacts.
Section Facts.
Context {V : Type}.
Implicit Types (d : Dict.t V) (k : string) (v : V).

Lemma get_set_same d k v : Dict.get k (Dict.set k v d) = Some v.
Proof.
  induction d as [|[k' v'] r IH]; simpl.
  - now rewrite String.eqb_refl.
  - destruct (k =? k')%string eqn:Hk; simpl; rewrite Hk; auto.
Qed.

Lemma get_set_other d k k' v : k <> k' -> Dict.get k' (Dict.set k v d) = Dict.get k' d.
Proof.
  intros Hne. induction d as [|[k0 v0] r IH]; simpl.
  - destruct (k' =? k)%string eqn:Hk; auto.
    apply String.eqb_eq in Hk. congruence.
  - destruct (k =? k0)%string eqn:Hk; simpl.
    + apply String.eqb_eq in Hk. subst k0.
      destruct (k' =? k)%string eqn:Hk'; auto.
      apply String.eqb_eq in Hk'. congruence.
    + now rewrite IH.
Qed.

Lemma keys_set_new d k v : ~ In k (Dict.keys d) -> Dict.keys (Dict.set k v d) = (Dict.keys d ++ [k])%list.
Proof.
  induction d as [|[k' v'] r IH]; simpl; intros Hn; auto.
  destruct (k =? k')%string eqn:Hk.
  - apply String.eqb_eq in Hk. subst k'. tauto.
  - simpl. f_equal. apply IH. tauto.
Qed.

Lemma keys_set_old d k v : In k (Dict.keys d) -> Dict.keys (Dict.set k v d) = Dict.keys d.
Proof.
  induction d as [|[k' v'] r IH]; simpl; intros Hin; [tauto|].
  destruct (k =? k')%string eqn:Hk; simpl; auto.
  f_equal. apply IH. destruct Hin as [->|]; auto.
  now rewrite String.eqb_refl in Hk.
Qed.

Lemma wf_set d k v : Dict.wf d -> Dict.wf (Dict.set k v d).
Proof.
  unfold Dict.wf. intros Hd.
  destruct (in_dec string_dec k (Dict.keys d)) as [Hin|Hn].
  - now rewrite keys_set_old.
  - rewrite keys_set_new by assumption.
    apply NoDup_app; auto.
    + constructor; [simpl; tauto | constructor].
    + intros x Hx [<-|[]]. tauto.
Qed.

Lemma get_In d k v : Dict.wf d -> In (k, v) d -> Dict.get k d = Some v.
Proof.
  unfold Dict.wf. induction d as [|[k' v'] r IH]; simpl; intros Hd Hin; [tauto|].
  inversion Hd as [|? ? Hn Hr]; subst.
  destruct Hin as [Heq|Hin].
  - inversion Heq; subst. now rewrite String.eqb_refl.
  - destruct (k =? k')%string eqn:Hk; auto.
    apply String.eqb_eq in Hk. subst k'.
    exfalso. apply Hn. change k with (fst (k, v)). now apply in_map.
Qed.

Lemma get_Some_In d k v : Dict.get k d = Some v -> In (k, v) d.
Proof.
  induction d as [|[k' v'] r IH]; simpl; [discriminate|].
  destruct (k =? k')%string eqn:Hk; intros H.
  - apply String.eqb_eq in Hk. inversion H; subst. now left.
  - right. auto.
Qed.

Lemma get_None_not_In d k : Dict.get k d = None -> ~ In k (Dict.keys d).
Proof.
  induction d as [|[k' v'] r IH]; simpl; [tauto|].
  destruct (k =? k')%string eqn:Hk; [discriminate|].
  apply String.eqb_neq in Hk. intros H [Heq|Hin]; [congruence|]. now apply IH.
Qed.

End Facts.
End DictFacts.

(** ** The effect monad and the collecting loop *)

Section LoopFacts.
Context {E : Env}.

Lemma for_each_ext {A S : Type} (step1 step2 : S -> A -> M E S) (xs : list A) :
  (forall s x w, In x xs -> step1 s x w = step2 s x w) ->
  forall acc w, for_each xs step1 acc w = for_each xs step2 acc w.
Proof.
  induction xs as [|x r IH]; intros Hext acc w; simpl; [reflexivity|].
  unfold bind. rewrite Hext by now left.
  destruct (step2 acc x w) as [[e|s'] w']; [reflexivity|].
  apply IH. intros; apply Hext; now right.
Qed.

Lemma for_each_pure {A S : Type} (f : S -> A -> S) (step : S -> A -> M E S) (xs : list A) :
  (forall s x w, In x xs -> step s x w = (inr (f s x), w)) ->
  forall acc w, for_each xs step acc w = (inr (fold_left f xs acc), w).
Proof.
  induction xs as [|x r IH]; intros Hstep acc w; simpl; [reflexivity|].
  unfold bind. rewrite Hstep by now left.
  apply IH. intros; apply Hstep; now right.
Qed.

(** The submitting loop of a dispatcher: one future per item, in order, each
    holding the outcome of its task. *)
Lemma submit_loop {A R : Type} (task : string -> A -> M E R) (items : list (string * A)) :
  forall acc w,
  exists fs w',
    for_each items
      (fun acc ha => future <- submit (task (fst ha) (snd ha)) ;;
                     ret (acc ++ [(future, fst ha)])%list) acc w
    = (inr (acc ++ fs)%list, w')
    /\ Forall2 (fun ha fh => snd fh = fst ha
                             /\ exists w1 w2, task (fst ha) (snd ha) w1 = (fst fh, w2))
               items fs.
Proof.
  induction items as [|[h a] r IH]; intros acc w; simpl.
  - exists [], w. rewrite app_nil_r. split; [reflexivity|constructor].
  - unfold bind at 1. unfold bind at 1. unfold submit at 1. simpl.
    destruct (task h a w) as [o w1] eqn:Ht. unfold ret at 1.
    destruct (IH (acc ++ [(o, h)])%list w1) as (fs & w' & Hrun & Hall).
    exists ((o, h) :: fs), w'. split.
    + rewrite Hrun. now rewrite <- app_assoc.
    + constructor; auto. simpl. split; eauto.
Qed.

End LoopFacts.

Section CollectFacts.
Context {F R : Type} (val : F -> string -> R).

Lemma collect_keys (l : list (F * string)) :
  forall acc, NoDup (Dict.keys acc ++ map snd l) ->
  Dict.keys (collect val l acc) = (Dict.keys acc ++ map snd l)%list.
Proof.
  induction l as [|[f h] r IH]; intros acc Hnd; simpl.
  - now rewrite app_nil_r.
  - assert (Hn : ~ In h (Dict.keys acc)).
    { intros Hin. apply NoDup_remove_2 in Hnd. apply Hnd. apply in_or_app. now left. }
    rewrite IH; rewrite DictFacts.keys_set_new by assumption;
      rewrite <- app_assoc; simpl; auto.
Qed.

Lemma collect_get_absent (l : list (F * string)) (h : string) :
  forall acc, ~ In h (map snd l) -> Dict.get h (collect val l acc) = Dict.get h acc.
Proof.
  induction l as [|[f h'] r IH]; intros acc Hn; simpl in *; [reflexivity|].
  rewrite IH by tauto. apply DictFacts.get_set_other. intros ->. tauto.
Qed.

Lemma collect_get (l : list (F * string)) (f : F) (h : string) :
  forall acc, NoDup (map snd l) -> In (f, h) l ->
  Dict.get h (collect val l acc) = Some (val f h).
Proof.
  induction l as [|[f' h'] r IH]; intros acc Hnd Hin; simpl in *; [tauto|].
  inversion Hnd as [|? ? Hn Hr]; subst.
  destruct Hin as [Heq|Hin].
  - inversion Heq; subst. rewrite collect_get_absent by assumption.
    apply DictFacts.get_set_same.
  - now apply IH.
Qed.

End CollectFacts.

(** ** Strings *)

Module PyStrFacts.




End PyStrFacts.

(** ** Prober and executor, path by path *)

Section LeafFacts.
Context {E : Env}.

Lemma test_connection_completed pool host creds w t0 w0 argv cp w1 t1 w2 :
  time_time E w = (t0, w0) ->
  ssh_argv pool host creds "exit" = inr argv ->
  subprocess_run E argv (Some (connection_timeout pool)) w0 = (inr cp, w1) ->
  time_time E w1 = (t1, w2) ->
  test_connection pool host creds w =
  (inr (if returncode cp =? 0
        then SSHConnectionResult.mk host true None (t1 - t0)%Q
               (Some (if PyStr.truthy (SSHCredentials.password creds) then "password" else "key"))
        else SSHConnectionResult.mk host false
               (Some (_interpret_ssh_error (returncode cp) (cp_stderr cp))) (t1 - t0)%Q None),
   w2).
Proof.
  intros Ht0 Hargv Hrun Ht1. run_leaf.
  destruct (returncode cp =? 0); reflexivity.
Qed.

Lemma test_connection_raised pool host creds w t0 w0 argv e w1 :
  time_time E w = (t0, w0) ->
  ssh_argv pool host creds "exit" = inr argv ->
  subprocess_run E argv (Some (connection_timeout pool)) w0 = (inl e, w1) ->
  test_connection pool host creds w =
  (inr (SSHConnectionResult.mk host false
          (Some (if is_TimeoutExpired e then connection_timeout_message pool else exn_str e))
          0%Q None), w1).
Proof.
  intros Ht0 Hargv Hrun. run_leaf.
  destruct (is_TimeoutExpired e); reflexivity.
Qed.

Lemma test_connection_no_argv pool host creds w t0 w0 e :
  time_time E w = (t0, w0) ->
  ssh_argv pool host creds "exit" = inl e ->
  test_connection pool host creds w =
  (inr (SSHConnectionResult.mk host false
          (Some (if is_TimeoutExpired e then connection_timeout_message pool else exn_str e))
          0%Q None), w0).
Proof.
  intros Ht0 Hargv. run_leaf.
  destruct (is_TimeoutExpired e); reflexivity.
Qed.

Lemma execute_command_completed pool host command creds timeout w t0 w0 argv cp w1 t1 w2 :
  time_time E w = (t0, w0) ->
  ssh_argv pool host creds command = inr argv ->
  subprocess_run E argv (Some timeout) w0 = (inr cp, w1) ->
  time_time E w1 = (t1, w2) ->
  execute_command pool host command creds timeout w =
  (inr (SSHCommandResult.mk host command (returncode cp =? 0) (cp_stdout cp) (cp_stderr cp)
          (returncode cp) (t1 - t0)%Q), w2).
Proof. intros Ht0 Hargv Hrun Ht1. run_leaf. reflexivity. Qed.

Lemma execute_command_raised pool host command creds timeout w t0 w0 argv e w1 :
  time_time E w = (t0, w0) ->
  ssh_argv pool host creds command = inr argv ->
  subprocess_run E argv (Some timeout) w0 = (inl e, w1) ->
  execute_command pool host command creds timeout w =
  (inr (SSHCommandResult.mk host command false ""
          (if is_TimeoutExpired e then command_timeout_message timeout else exn_str e)
          (-1) 0%Q), w1).
Proof.
  intros Ht0 Hargv Hrun. run_leaf.
  destruct (is_TimeoutExpired e); reflexivity.
Qed.

Lemma execute_command_no_argv pool host command creds timeout w t0 w0 e :
  time_time E w = (t0, w0) ->
  ssh_argv pool host creds command = inl e ->
  execute_command pool host command creds timeout w =
  (inr (SSHCommandResult.mk host command false ""
          (if is_TimeoutExpired e then command_timeout_message timeout else exn_str e)
          (-1) 0%Q), w0).
Proof.
  intros Ht0 Hargv. run_leaf.
  destruct (is_TimeoutExpired e); reflexivity.
Qed.

(** Neither operation raises, whatever the environment does; the record names
    the host it was asked about, and a failed probe carries a message. *)
Lemma test_connection_returns pool host creds (w : World E) :
  exists r w', test_connection pool host creds w = (inr r, w')
    /\ SSHConnectionResult.host r = host
    /\ (SSHConnectionResult.success r = false ->
        exists msg, SSHConnectionResult.error_message r = Some msg).
Proof.
  destruct (time_time E w) as [t0 w0] eqn:Ht0.
  destruct (ssh_argv pool host creds "exit") as [e|argv] eqn:Hargv.
  - rewrite (test_connection_no_argv _ _ _ _ _ _ _ Ht0 Hargv). do 2 eexists; split; [reflexivity|]; simpl; eauto.
  - destruct (subprocess_run E argv (Some (connection_timeout pool)) w0) as [[e|cp] w1] eqn:Hrun.
    + rewrite (test_connection_raised _ _ _ _ _ _ _ _ _ Ht0 Hargv Hrun). do 2 eexists; split; [reflexivity|]; simpl; eauto.
    + destruct (time_time E w1) as [t1 w2] eqn:Ht1.
      rewrite (test_connection_completed _ _ _ _ _ _ _ _ _ _ _ Ht0 Hargv Hrun Ht1).
      destruct (returncode cp =? 0); do 2 eexists; (split; [reflexivity|]); simpl; split; auto; intros; eauto; discriminate.
Qed.

Lemma execute_command_returns pool host command creds timeout (w : World E) :
  exists r w', execute_command pool host command creds timeout w = (inr r, w')
    /\ SSHCommandResult.host r = host /\ SSHCommandResult.command r = command.
Proof.
  destruct (time_time E w) as [t0 w0] eqn:Ht0.
  destruct (ssh_argv pool host creds command) as [e|argv] eqn:Hargv.
  - rewrite (execute_command_no_argv _ _ _ _ _ _ _ _ _ Ht0 Hargv). do 2 eexists; split; [reflexivity|]; simpl; auto.
  - destruct (subprocess_run E argv (Some timeout) w0) as [[e|cp] w1] eqn:Hrun.
    + rewrite (execute_command_raised _ _ _ _ _ _ _ _ _ _ _ Ht0 Hargv Hrun). do 2 eexists; split; [reflexivity|]; simpl; auto.
    + destruct (time_time E w1) as [t1 w2] eqn:Ht1.
      rewrite (execute_command_completed _ _ _ _ _ _ _ _ _ _ _ _ _ Ht0 Hargv Hrun Ht1).
      do 2 eexists; split; [reflexivity|]; simpl; auto.
Qed.

End LeafFacts.

(** ** The classification of probe failures *)







Example interpret_refused :
  _interpret_ssh_error 255 "ssh: connect to host 10.0.0.2 port 22: Connection refused"
  = "SSH connection failed - host unreachable or SSH not running. Ensure SSH server is running on the target host.".
Proof. reflexivity. Qed.

Example interpret_denied :
  _interpret_ssh_error 5 "Permission denied, please try again."
  = "SSH authentication failed - invalid credentials. Check username and password/key.".
Proof. reflexivity. Qed.

Example interpret_killed : _interpret_ssh_error (-9) "" = "SSH failed with exit code -9".
Proof. reflexivity. Qed.

(** ** Command executor *)

Lemma ssh_argv_error pool host creds remote_command e :
  ssh_argv pool host creds remote_command = inl e -> is_TimeoutExpired e = false.
Proof.
  unfold ssh_argv.
  destruct (SSHCredentials.password creds) as [p|];
    [destruct (p =? "")%string|];
    destruct (SSHCredentials.private_key_path creds);
    intros H; inversion H; reflexivity.
Qed.

(** C5. [execute_command] returns a result record in every environment and
    for every input, never an exception. When the child process runs into the
    timeout the record has success false, exit code -1 and the timeout message
    in stderr; when starting or running the child raises anything else the
    record has the same shape with the text of the exception in stderr; when
    the child completes, success is true exactly when its exit status is 0 and
    stdout, stderr and the exit status are the child's. *)
Theorem execute_command_never_raises :
  forall (E : Env) pool host command creds timeout (w : World E),
  exists r w',
    execute_command pool host command creds timeout w = (inr r, w')
    /\ SSHCommandResult.host r = host
    /\ SSHCommandResult.command r = command
    /\ match ssh_argv pool host creds command with
       | inl e =>
           SSHCommandResult.success r = false
           /\ SSHCommandResult.exit_code r = -1
           /\ SSHCommandResult.stderr r = exn_str e
       | inr argv =>
           match subprocess_run E argv (Some timeout) (snd (time_time E w)) with
           | (inl e, _) =>
               SSHCommandResult.success r = false
               /\ SSHCommandResult.exit_code r = -1
               /\ SSHCommandResult.stdout r = ""
               /\ if is_TimeoutExpired e
                  then SSHCommandResult.stderr r = command_timeout_message timeout
                       /\ PyStr.contains "timeout" (SSHCommandResult.stderr r) = true
                  else SSHCommandResult.stderr r = exn_str e
           | (inr cp, _) =>
               (SSHCommandResult.success r = true <-> returncode cp = 0)
               /\ SSHCommandResult.exit_code r = returncode cp
               /\ SSHCommandResult.stdout r = cp_stdout cp
               /\ SSHCommandResult.stderr r = cp_stderr cp
           end
       end.
Proof.
  intros E pool host command creds timeout w.
  destruct (time_time E w) as [t0 w0] eqn:Ht0. simpl snd.
  destruct (ssh_argv pool host creds command) as [e|argv] eqn:Hargv.
  - rewrite (execute_command_no_argv _ _ _ _ _ _ _ _ _ Ht0 Hargv).
    rewrite (ssh_argv_error _ _ _ _ _ Hargv).
    do 2 eexists. split; [reflexivity|]. simpl. auto.
  - destruct (subprocess_run E argv (Some timeout) w0) as [[e|cp] w1] eqn:Hrun.
    + rewrite (execute_command_raised _ _ _ _ _ _ _ _ _ _ _ Ht0 Hargv Hrun).
      do 2 eexists. split; [reflexivity|]. simpl.
      destruct (is_TimeoutExpired e); repeat split.
    + destruct (time_time E w1) as [t1 w2] eqn:Ht1.
      rewrite (execute_command_completed _ _ _ _ _ _ _ _ _ _ _ _ _ Ht0 Hargv Hrun Ht1).
      do 2 eexists. split; [reflexivity|]. simpl. repeat split; auto; apply Z.eqb_eq.
Qed.

(** ** Timing *)



(** ** Parallel dispatcher *)

Section DispatcherFacts.
Context {E : Env}.

Lemma bind_inr {A B : Type} (m : M E A) (k : A -> M E B) w a w' :
  m w = (inr a, w') -> bind m k w = k a w'.
Proof. intros H. unfold bind. now rewrite H. Qed.

Lemma bind_inl {A B : Type} (m : M E A) (k : A -> M E B) w e w' :
  m w = (inl e, w') -> bind m k w = (inl e, w').
Proof. intros H. unfold bind. now rewrite H. Qed.

Lemma Forall2_hosts {A F : Type} (P : string * A -> F * string -> Prop)
    (items : list (string * A)) (fs : list (F * string)) :
  Forall2 (fun ha fh => snd fh = fst ha /\ P ha fh) items fs ->
  map snd fs = map fst items.
Proof.
  induction 1 as [|ha fh items fs [Hh _] _ IH]; simpl; [reflexivity|].
  now rewrite Hh, IH.
Qed.

Lemma Forall2_pick {A B : Type} (P : A -> B -> Prop) (l : list A) (l' : list B) (x : A) :
  Forall2 P l l' -> In x l -> exists y, In y l' /\ P x y.
Proof.
  induction 1 as [|a b l l' Hab _ IH]; simpl; [tauto|].
  intros [->|Hin].
  - exists b. auto.
  - destruct (IH Hin) as (y & Hy & Hp). exists y. auto.
Qed.

(** What a dispatcher returns once every task has been submitted: the
    completed futures are collected into a dictionary with one key per item. *)
Lemma collected_complete {A R : Type} (task : string -> A -> M E R)
    (val : exn + R -> string -> R) (items : Dict.t A) (fs : list ((exn + R) * string))
    (w : World E) :
  Dict.wf items ->
  Forall2 (fun ha fh => snd fh = fst ha
                        /\ exists w1 w2, task (fst ha) (snd ha) w1 = (fst fh, w2)) items fs ->
  let results := collect val (as_completed E _ w fs) [] in
  Permutation (Dict.keys results) (Dict.keys items)
  /\ forall host a, In (host, a) items ->
       exists outcome w1 w2,
         task host a w1 = (outcome, w2) /\ Dict.get host results = Some (val outcome host).
Proof.
  intros Hwf Hall results.
  pose proof (as_completed_perm E _ w fs) as Hperm.
  pose proof (Forall2_hosts _ _ _ Hall) as Hhosts.
  assert (Hnd : NoDup (map snd (as_completed E _ w fs))).
  { apply (Permutation_NoDup (l := map snd fs)).
    - now apply Permutation_map.
    - rewrite Hhosts. exact Hwf. }
  split.
  - unfold results. rewrite collect_keys by exact Hnd. simpl.
    change (Dict.keys items) with (map fst items). rewrite <- Hhosts. apply Permutation_sym. now apply Permutation_map.
  - intros host a Hin.
    destruct (Forall2_pick _ _ _ _ Hall Hin) as ([o h] & Hfs & Hh & w1 & w2 & Htask).
    simpl in Hh, Htask. subst h.
    exists o, w1, w2. split; [exact Htask|].
    unfold results. apply collect_get; [exact Hnd|].
    apply (Permutation_in _ Hperm). exact Hfs.
Qed.

Lemma test_multiple_connections_with_complete
    (worker : string -> SSHCredentials.t -> M E SSHConnectionResult.t)
    (hosts_credentials : Dict.t SSHCredentials.t) (max_workers : positive) (w : World E) :
  Dict.wf hosts_credentials ->
  exists results w',
    test_multiple_connections_with worker hosts_credentials max_workers w = (inr results, w')
    /\ Permutation (Dict.keys results) (Dict.keys hosts_credentials)
    /\ forall host creds, In (host, creds) hosts_credentials ->
         exists outcome w1 w2,
           worker host creds w1 = (outcome, w2)
           /\ Dict.get host results
              = Some (match outcome with
                      | inr r => r
                      | inl e => failed_test host e
                      end).
Proof.
  intros Hwf. unfold test_multiple_connections_with.
  destruct (submit_loop worker (Dict.items hosts_credentials) [] w) as (fs & w1 & Hsub & Hall).
  simpl app in Hsub.
  erewrite bind_inr; cycle 1.
  { erewrite for_each_ext; [exact Hsub|]. intros s [h c] w2 _. reflexivity. }
  erewrite bind_inr by reflexivity.
  pose (val := fun (future : exn + SSHConnectionResult.t) (host : string) =>
                 match future with
                 | inr r => r
                 | inl e => failed_test host e
                 end).
  rewrite (for_each_pure (fun res fh => Dict.set (snd fh) (val (fst fh) (snd fh)) res)).
  - exists (collect val (as_completed E _ w1 fs) []), w1. split; [reflexivity|].
    exact (collected_complete worker val _ fs w1 Hwf Hall).
  - intros s [[e|r] h] w2 _; reflexivity.
Qed.

Lemma select_credentials_nonempty (credentials_map : Dict.t SSHCredentials.t) (host : string) :
  credentials_map <> [] ->
  exists first rest,
    credentials_map = first :: rest
    /\ select_credentials credentials_map host
       = inr (get_default (Dict.get host credentials_map) (snd first)).
Proof.
  destruct credentials_map as [|first rest]; [congruence|].
  intros _. exists first, rest. split; reflexivity.
Qed.

Lemma execute_parallel_commands_with_complete
    (worker : string -> string -> SSHCredentials.t -> Z -> M E SSHCommandResult.t)
    (hosts_commands : Dict.t string) (credentials_map : Dict.t SSHCredentials.t)
    (max_workers : positive) (timeout : Z) (w : World E) :
  Dict.wf hosts_commands ->
  credentials_map <> [] ->
  exists results w',
    execute_parallel_commands_with worker hosts_commands credentials_map max_workers timeout w
    = (inr results, w')
    /\ Permutation (Dict.keys results) (Dict.keys hosts_commands)
    /\ forall host command, In (host, command) hosts_commands ->
         exists credentials outcome w1 w2,
           select_credentials credentials_map host = inr credentials
           /\ worker host command credentials timeout w1 = (outcome, w2)
           /\ Dict.get host results
              = Some (match outcome with
                      | inr r => r
                      | inl e => failed_execution host command e
                      end).
Proof.
  intros Hwf Hne. unfold execute_parallel_commands_with.
  destruct credentials_map as [|[h0 c0] rest] eqn:Hmap; [congruence|].
  rewrite <- Hmap in *.
  pose (task := fun (host command : string) =>
                  worker host command (get_default (Dict.get host credentials_map) c0) timeout).
  assert (Hsel : forall host, select_credentials credentials_map host
                              = inr (get_default (Dict.get host credentials_map) c0)).
  { intros host. rewrite Hmap. reflexivity. }
  destruct (submit_loop task (Dict.items hosts_commands) [] w) as (fs & w1 & Hsub & Hall).
  simpl app in Hsub.
  erewrite bind_inr; cycle 1.
  { erewrite for_each_ext; [exact Hsub|]. intros s [h c] w2 _.
    cbv beta iota. erewrite bind_inr; [reflexivity|]. unfold lift. now rewrite Hsel. }
  erewrite bind_inr by reflexivity.
  pose (val := fun (future : exn + SSHCommandResult.t) (host : string) =>
                 match future with
                 | inr r => r
                 | inl e => failed_execution host (get_default (Dict.get host hosts_commands) "") e
                 end).
  pose proof (collected_complete task val _ fs w1 Hwf Hall) as [Hkeys Hget].
  rewrite (for_each_pure (fun res fh => Dict.set (snd fh) (val (fst fh) (snd fh)) res)).
  - exists (collect val (as_completed E _ w1 fs) []), w1. split; [reflexivity|].
    split; [exact Hkeys|].
    intros host command Hin.
    destruct (Hget host command Hin) as (o & w2 & w3 & Htask & Hres).
    exists (get_default (Dict.get host credentials_map) c0), o, w2, w3.
    split; [apply Hsel|]. split; [exact Htask|].
    rewrite Hres. unfold val. rewrite (DictFacts.get_In _ _ _ Hwf Hin). reflexivity.
  - intros s [[e|r] h] w2 Hin; [|reflexivity]. cbv beta iota.
    assert (Hh : In h (Dict.keys hosts_commands)).
    { change (Dict.keys hosts_commands) with (map fst (Dict.items hosts_commands)).
      rewrite <- (Forall2_hosts _ _ _ Hall).
      apply (Permutation_in (l := map snd (as_completed E _ w1 fs))).
      - apply Permutation_sym, Permutation_map, (as_completed_perm E).
      - change h with (snd (@inl exn SSHCommandResult.t e, h)). now apply in_map. }
    unfold bind, lift, ret, val. simpl fst. simpl snd.
    destruct (Dict.get h hosts_commands) as [c|] eqn:Hc; [reflexivity|].
    exfalso. exact (DictFacts.get_None_not_In _ _ Hc Hh).
Qed.

End DispatcherFacts.

Section DispatcherEdges.
Context {E : Env}.

Lemma execute_parallel_commands_with_empty
    (worker : string -> string -> SSHCredentials.t -> Z -> M E SSHCommandResult.t)
    (credentials_map : Dict.t SSHCredentials.t) (max_workers : positive) (timeout : Z)
    (w : World E) :
  execute_parallel_commands_with worker [] credentials_map max_workers timeout w = (inr [], w).
Proof.
  unfold execute_parallel_commands_with. simpl for_each.
  erewrite bind_inr by reflexivity. erewrite bind_inr by reflexivity.
  pose proof (as_completed_perm E ((exn + SSHCommandResult.t) * string) w []) as Hperm.
  apply Permutation_nil in Hperm. rewrite Hperm. reflexivity.
Qed.

Lemma execute_parallel_commands_with_no_credentials
    (worker : string -> string -> SSHCredentials.t -> Z -> M E SSHCommandResult.t)
    (hosts_commands : Dict.t string) (max_workers : positive) (timeout : Z) (w : World E) :
  hosts_commands <> [] ->
  execute_parallel_commands_with worker hosts_commands [] max_workers timeout w
  = (inl (Exn IndexError "list index out of range"), w).
Proof.
  destruct hosts_commands as [|[h c] r]; [congruence|]. intros _.
  unfold execute_parallel_commands_with.
  apply bind_inl. simpl for_each. apply bind_inl. apply bind_inl. reflexivity.
Qed.

End DispatcherEdges.

(** C1, as the code has it. For every batch of distinct hosts
    [test_multiple_connections] returns a mapping with as many entries as the
    batch, whose keys are exactly the requested hosts, each once, whatever the
    per-host operations return or raise: a host whose future raises gets the
    failure record made from the exception, every other host the record its
    own operation returned.
    [execute_parallel_commands] does the same when [credentials_map] is not
    empty or the batch is empty. *)
Theorem dispatcher_one_result_per_host :
  (forall (E : Env) worker hosts_credentials max_workers (w : World E),
      Dict.wf hosts_credentials ->
      exists results w',
        test_multiple_connections_with worker hosts_credentials max_workers w
        = (inr results, w')
        /\ Dict.len results = Dict.len hosts_credentials
        /\ Permutation (Dict.keys results) (Dict.keys hosts_credentials)
        /\ forall host creds, In (host, creds) hosts_credentials ->
             exists outcome w1 w2,
               worker host creds w1 = (outcome, w2)
               /\ Dict.get host results
                  = Some (match outcome with
                          | inr r => r
                          | inl e => failed_test host e
                          end))
  /\ (forall (E : Env) worker hosts_commands credentials_map max_workers timeout (w : World E),
        Dict.wf hosts_commands ->
        credentials_map <> [] \/ hosts_commands = [] ->
        exists results w',
          execute_parallel_commands_with worker hosts_commands credentials_map
            max_workers timeout w = (inr results, w')
          /\ Dict.len results = Dict.len hosts_commands
          /\ Permutation (Dict.keys results) (Dict.keys hosts_commands)
          /\ forall host command, In (host, command) hosts_commands ->
               exists credentials outcome w1 w2,
                 select_credentials credentials_map host = inr credentials
                 /\ worker host command credentials timeout w1 = (outcome, w2)
                 /\ Dict.get host results
                    = Some (match outcome with
                            | inr r => r
                            | inl e => failed_execution host command e
                            end)).
Proof.
  assert (Hlen : forall (A B : Type) (d : Dict.t A) (d' : Dict.t B),
             Permutation (Dict.keys d) (Dict.keys d') -> Dict.len d = Dict.len d').
  { intros A B d d' Hp. apply Permutation_length in Hp.
    unfold Dict.keys in Hp. rewrite !length_map in Hp. unfold Dict.len. now rewrite Hp. }
  split.
  - intros E worker hc mw w Hwf.
    destruct (test_multiple_connections_with_complete worker hc mw w Hwf)
      as (results & w' & Hrun & Hkeys & Hget).
    exists results, w'. auto.
  - intros E worker hc cm mw timeout w Hwf [Hne| ->].
    + destruct (execute_parallel_commands_with_complete worker hc cm mw timeout w Hwf Hne)
        as (results & w' & Hrun & Hkeys & Hget).
      exists results, w'. auto.
    + rewrite execute_parallel_commands_with_empty.
      exists [], w. split; [reflexivity|]. split; [reflexivity|]. split; [constructor|].
      intros host command [].
Qed.

Lemma dispatcher_one_result_per_host_witness :
  (exists results w',
      test_multiple_connections (E := Sim.env) default_pool
        [("10.0.0.1", Sim.pi_password); ("10.0.0.2", Sim.pi_password);
         ("10.0.0.3", Sim.pi_password)] 5 Sim.w0 = (inr results, w')
      /\ Permutation (Dict.keys results) ["10.0.0.1"; "10.0.0.2"; "10.0.0.3"])
  /\ (exists results w',
        execute_parallel_commands (E := Sim.env) default_pool
          [("10.0.0.1", "exit"); ("10.0.0.9", "exit")] [("10.0.0.1", Sim.pi_password)] 5 60
          Sim.w0 = (inr results, w')
        /\ Permutation (Dict.keys results) ["10.0.0.1"; "10.0.0.9"]).
Proof.
  split.
  - destruct (proj1 dispatcher_one_result_per_host Sim.env (test_connection default_pool)
                [("10.0.0.1", Sim.pi_password); ("10.0.0.2", Sim.pi_password);
                 ("10.0.0.3", Sim.pi_password)] 5%positive Sim.w0)
      as (results & w' & Hrun & _ & Hkeys & _).
    + repeat constructor; simpl; intuition (try discriminate).
    + exists results, w'. split; [exact Hrun | exact Hkeys].
  - destruct (proj2 dispatcher_one_result_per_host Sim.env (execute_command default_pool)
                [("10.0.0.1", "exit"); ("10.0.0.9", "exit")] [("10.0.0.1", Sim.pi_password)]
                5%positive 60 Sim.w0)
      as (results & w' & Hrun & _ & Hkeys & _).
    + repeat constructor; simpl; intuition (try discriminate).
    + left. discriminate.
    + exists results, w'. split; [exact Hrun | exact Hkeys].
Defined.

(** One host answers, one refuses the connection, one outlasts the timeout:
    three records, in the order of completion, and the call returns. *)
Example three_hosts_probe :
  fst (test_multiple_connections (E := Sim.env) default_pool
         [("10.0.0.1", Sim.pi_password); ("10.0.0.2", Sim.pi_password);
          ("10.0.0.3", Sim.pi_password)] 5 Sim.w0)
  = inr [("10.0.0.3",
          SSHConnectionResult.mk "10.0.0.3" false
            (Some "Connection timeout after 30 seconds") 0%Q None);
         ("10.0.0.2",
          SSHConnectionResult.mk "10.0.0.2" false
            (Some "SSH connection failed - host unreachable or SSH not running. Ensure SSH server is running on the target host.")
            (102 - 102)%Q None);
         ("10.0.0.1",
          SSHConnectionResult.mk "10.0.0.1" true None (102 - 100)%Q (Some "password"))].
Proof. reflexivity. Qed.

(** C1 as stated fails for [execute_parallel_commands]: one host, no
    credentials at all, and the call ends in an exception instead of a
    mapping. *)
Lemma dispatcher_without_credentials_raises :
  Dict.wf [("10.0.0.1", "uptime")]
  /\ execute_parallel_commands (E := Sim.env) default_pool [("10.0.0.1", "uptime")] [] 5 60
       Sim.w0
     = (inl (Exn IndexError "list index out of range"), Sim.w0).
Proof.
  split; [|reflexivity].
  repeat constructor. simpl. tauto.
Qed.

(** C8. The credential used for a host without an entry of its own is the
    first value of [credentials_map], and the worker is run with it; with an
    empty [credentials_map] and at least one host the call ends in
    [IndexError] and returns no mapping. *)
Theorem fallback_is_first_credential :
  (forall credentials_map host first rest,
      credentials_map = first :: rest ->
      Dict.get host credentials_map = None ->
      select_credentials credentials_map host = inr (snd first))
  /\ (forall (E : Env) worker hosts_commands credentials_map max_workers timeout (w : World E)
             host command first rest,
        Dict.wf hosts_commands ->
        credentials_map = first :: rest ->
        In (host, command) hosts_commands ->
        Dict.get host credentials_map = None ->
        exists results w' outcome w1 w2,
          execute_parallel_commands_with worker hosts_commands credentials_map
            max_workers timeout w = (inr results, w')
          /\ worker host command (snd first) timeout w1 = (outcome, w2)
          /\ Dict.get host results
             = Some (match outcome with
                     | inr r => r
                     | inl e => failed_execution host command e
                     end))
  /\ (forall (E : Env) worker hosts_commands max_workers timeout (w : World E),
        hosts_commands <> [] ->
        execute_parallel_commands_with worker hosts_commands [] max_workers timeout w
        = (inl (Exn IndexError "list index out of range"), w)).
Proof.
  assert (Hsel : forall credentials_map host first rest,
             credentials_map = first :: rest ->
             Dict.get host credentials_map = None ->
             select_credentials credentials_map host = inr (snd first)).
  { intros cm host first rest -> Hget. unfold select_credentials.
    simpl first_value. now rewrite Hget. }
  split; [exact Hsel|]. split.
  - intros E worker hc cm mw timeout w host command first rest Hwf Hcm Hin Hget.
    destruct (execute_parallel_commands_with_complete worker hc cm mw timeout w Hwf)
      as (results & w' & Hrun & _ & Hres); [rewrite Hcm; discriminate|].
    destruct (Hres host command Hin) as (c & o & w1 & w2 & Hc & Hw & Hr).
    rewrite (Hsel _ _ _ _ Hcm Hget) in Hc. inversion Hc; subst c.
    exists results, w', o, w1, w2. auto.
  - intros E worker hc mw timeout w Hne.
    now apply execute_parallel_commands_with_no_credentials.
Qed.

Lemma fallback_is_first_credential_witness :
  select_credentials [("10.0.0.1", Sim.pi_password)] "10.0.0.9" = inr Sim.pi_password
  /\ execute_parallel_commands (E := Sim.env) default_pool [("10.0.0.9", "exit")] [] 5 60 Sim.w0
     = (inl (Exn IndexError "list index out of range"), Sim.w0).
Proof.
  split.
  - exact (proj1 fallback_is_first_credential [("10.0.0.1", Sim.pi_password)] "10.0.0.9"
             ("10.0.0.1", Sim.pi_password) [] eq_refl eq_refl).
  - apply (proj2 (proj2 fallback_is_first_credential) Sim.env). discriminate.
Defined.

(** ** Credential model *)

(** C2, as the code has it. Constructing a credential record fails with
    [ValueError] exactly when neither the password nor the key path is truthy,
    that is when each is [None] or the empty string; otherwise it returns the
    record with the fields as given and the port 22 unless one was passed.
    Construction is a pure function: it touches no world. *)
Theorem credentials_construction :
  (forall username password private_key_path port,
      new_SSHCredentials username password private_key_path port
      = if PyStr.truthy password || PyStr.truthy private_key_path
        then inr (SSHCredentials.mk username password private_key_path (get_default port 22))
        else inl (Exn ValueError "Either password or private_key_path must be provided"))
  /\ (forall username port,
        new_SSHCredentials username None None port
        = inl (Exn ValueError "Either password or private_key_path must be provided"))
  /\ (forall username password private_key_path c,
        new_SSHCredentials username password private_key_path None = inr c ->
        SSHCredentials.port c = 22).
Proof.
  assert (H : forall username password private_key_path port,
             new_SSHCredentials username password private_key_path port
             = if PyStr.truthy password || PyStr.truthy private_key_path
               then inr (SSHCredentials.mk username password private_key_path
                           (get_default port 22))
               else inl (Exn ValueError "Either password or private_key_path must be provided")).
  { intros u p k port. unfold new_SSHCredentials, __post_init__. simpl.
    destruct (PyStr.truthy p), (PyStr.truthy k), port; reflexivity. }
  split; [exact H|]. split.
  - intros u port. apply H.
  - intros u p k c Hc. rewrite H in Hc.
    destruct (PyStr.truthy p || PyStr.truthy k); inversion Hc. reflexivity.
Qed.

(** C2 as stated fails: a password that is present but empty does not make
    construction succeed. *)
Lemma empty_password_is_rejected :
  Some "" <> @None string
  /\ new_SSHCredentials "pi" (Some "") None None
     = inl (Exn ValueError "Either password or private_key_path must be provided").
Proof. split; [discriminate | reflexivity]. Qed.

(** ** Key distribution *)

Module RemoteShellFacts.
Import RemoteShell.









End RemoteShellFacts.




(** ** Objects *)

Section HeapFacts.
Context {E : Env}.
Import ObjectModel.



End HeapFacts.




(** ** Fleet manager *)

Section FleetFacts.
Context {E : Env}.



End FleetFacts.




(** ** Key distribution and nodes without a password *)

Section SetupFacts.
Context {E : Env}.

Lemma bind_ext {A B : Type} (m : M E A) (k k' : A -> M E B) (w : World E) :
  forall m', m w = m' w -> (forall a w', k a w' = k' a w') -> bind m k w = bind m' k' w.
Proof.
  intros m' Hm Hk. unfold bind. rewrite <- Hm.
  destruct (m w) as [[e|a] w']; [reflexivity | apply Hk].
Qed.

Lemma new_SSHCredentials_password (username : string) (password : option string) :
  new_SSHCredentials username password None None
  = if PyStr.truthy password
    then inr (SSHCredentials.mk username password None 22)
    else inl (Exn ValueError "Either password or private_key_path must be provided").
Proof.
  unfold new_SSHCredentials, __post_init__. simpl.
  destruct (PyStr.truthy password); reflexivity.
Qed.

Lemma deploy_to_nodes_raises (self : SSHManager) (public_key : string)
    (items : list (string * NodeConfig.t)) :
  forall (results : Dict.t bool) (w : World E) name node,
    In (name, node) items ->
    PyStr.truthy (NodeConfig.ip node) = true ->
    PyStr.truthy (NodeConfig.password node) = false ->
    exists w',
      deploy_to_nodes self public_key items results w
      = (inl (Exn ValueError "Either password or private_key_path must be provided"), w').
Proof.
  induction items as [|[name0 node0] rest IH]; intros results w name node Hin Hip Hpw;
    [destruct Hin|].
  unfold deploy_to_nodes in *. simpl for_each.
  destruct (PyStr.truthy (NodeConfig.ip node0)) eqn:Hip0; simpl negb; cbv iota.
  - rewrite new_SSHCredentials_password.
    destruct (PyStr.truthy (NodeConfig.password node0)) eqn:Hpw0.
    + destruct Hin as [Heq|Hin]; [inversion Heq; subst; congruence|].
      destruct (execute_command_returns (pool self) (get_default (NodeConfig.ip node0) "")
                  (deploy_command public_key)
                  (SSHCredentials.mk (get_default (NodeConfig.username node0) "pi")
                     (NodeConfig.password node0) None 22) 60 w) as (r & w1 & Hr & _).
      erewrite bind_inr; cycle 1.
      { erewrite bind_inr by reflexivity. erewrite bind_inr by exact Hr. reflexivity. }
      exact (IH _ w1 name node Hin Hip Hpw).
    + exists w. apply bind_inl. apply bind_inl. reflexivity.
  - destruct Hin as [Heq|Hin]; [inversion Heq; subst; congruence|].
    erewrite bind_inr by reflexivity.
    exact (IH _ w name node Hin Hip Hpw).
Qed.

(** The loop reads the address, the user name and the password of a node and
    nothing else. *)
Lemma deploy_to_nodes_ignores_key_path (self : SSHManager) (public_key : string)
    (items items' : list (string * NodeConfig.t)) :
  Forall2 (fun x y => NodeConfig.ip (snd x) = NodeConfig.ip (snd y)
                      /\ NodeConfig.username (snd x) = NodeConfig.username (snd y)
                      /\ NodeConfig.password (snd x) = NodeConfig.password (snd y))
          items items' ->
  forall (results : Dict.t bool) (w : World E),
    deploy_to_nodes self public_key items results w
    = deploy_to_nodes self public_key items' results w.
Proof.
  induction 1 as [|[n1 c1] [n2 c2] items items' (Hip & Hu & Hp) _ IH]; intros results w;
    [reflexivity|].
  unfold deploy_to_nodes in *. simpl for_each. simpl in Hip, Hu, Hp.
  rewrite Hip, Hu, Hp. apply bind_ext; [reflexivity|]. intros acc w1. apply IH.
Qed.

End SetupFacts.

(** C10. [setup_ssh_keys] builds the credentials of a node from its user name
    and password alone, so its outcome does not depend on any node's
    [ssh_key_path]; and a configuration
    with a node that has an address but no truthy password makes the call end
    in an exception and return no mapping, whatever was recorded for the nodes
    before it: the [ValueError] of the credential constructor whenever the
    public key could be loaded. *)
Theorem setup_ssh_keys_stops_at_node_without_password :
  (forall (E : Env) self cluster_config key_path (w : World E) name node,
      In (name, node) (get_default (nodes cluster_config) []) ->
      PyStr.truthy (NodeConfig.ip node) = true ->
      PyStr.truthy (NodeConfig.password node) = false ->
      exists e w',
        setup_ssh_keys self cluster_config key_path w = (inl e, w')
        /\ forall public_key w1,
             load_public_key key_path w = (inr public_key, w1) ->
             e = Exn ValueError "Either password or private_key_path must be provided")
  /\ (forall (E : Env) self public_key items items' results (w : World E),
        Forall2 (fun x y => NodeConfig.ip (snd x) = NodeConfig.ip (snd y)
                            /\ NodeConfig.username (snd x) = NodeConfig.username (snd y)
                            /\ NodeConfig.password (snd x) = NodeConfig.password (snd y))
                items items' ->
        deploy_to_nodes self public_key items results w
        = deploy_to_nodes self public_key items' results w).
Proof.
  split.
  - intros E self cfg key_path w name node Hin Hip Hpw. unfold setup_ssh_keys.
    destruct (load_public_key key_path w) as [[e|pk] w1] eqn:Hload.
    + exists e, w1. split; [now apply bind_inl|]. intros pk w2 H. discriminate H.
    + destruct (deploy_to_nodes_raises self pk _ [] w1 name node Hin Hip Hpw) as (w' & Hrun).
      eexists. exists w'. split; [erewrite bind_inr by exact Hload; exact Hrun|].
      reflexivity.
  - intros E self pk items items' results w Hsame.
    now apply deploy_to_nodes_ignores_key_path.
Qed.

(** In the simulated fleet: the first node gets the key, the second has a
    key path but no password, and the call ends in the exception; the key is
    on the first host all the same. *)
Lemma setup_ssh_keys_stops_at_node_without_password_witness :
  exists w',
    setup_ssh_keys (E := Sim.env) Sim.manager
      {| nodes := Some [("node1", Sim.node (Some "10.0.0.1") (Some "raspberry") None);
                        ("node3", Sim.node (Some "10.0.0.3") None
                                    (Some "/home/pi/.ssh/id_rsa"))] |}
      "~/.ssh/id_rsa" Sim.w0
    = (inl (Exn ValueError "Either password or private_key_path must be provided"), w')
    /\ option_map (fun a => RemoteShell.lines_of (Sim.home a)) (Dict.get "10.0.0.1" (Sim.fleet w'))
       = Some [Sim.public_key].
Proof.
  destruct (proj1 setup_ssh_keys_stops_at_node_without_password Sim.env Sim.manager
              {| nodes := Some [("node1", Sim.node (Some "10.0.0.1") (Some "raspberry") None);
                                ("node3", Sim.node (Some "10.0.0.3") None
                                            (Some "/home/pi/.ssh/id_rsa"))] |}
              "~/.ssh/id_rsa" Sim.w0 "node3"
              (Sim.node (Some "10.0.0.3") None (Some "/home/pi/.ssh/id_rsa")))
    as (e & w' & Hrun & He).
  - simpl. auto.
  - reflexivity.
  - reflexivity.
  - exists w'. rewrite (He Sim.public_key Sim.w0 eq_refl) in Hrun. split; [exact Hrun|].
    vm_compute in Hrun. inversion Hrun. reflexivity.
Defined.

(** * Further properties *)

(** ** The prober, on every path *)

(** X1. [test_connection] returns a record for the host it was asked about in
    every environment, never an exception. The record reports success exactly
    when the argument vector could be built and the child exited with status
    0; a successful record has no error message and names the authentication
    method, "password" whenever the password is truthy (also when a key path
    is given as well) and "key" otherwise; a failed record has an error
    message and no authentication method. *)
Theorem probe_never_raises :
  forall (E : Env) pool host creds (w : World E),
  exists r w',
    test_connection pool host creds w = (inr r, w')
    /\ SSHConnectionResult.host r = host
    /\ (SSHConnectionResult.success r = true <->
        exists argv cp w1,
          ssh_argv pool host creds "exit" = inr argv
          /\ subprocess_run E argv (Some (connection_timeout pool)) (snd (time_time E w))
             = (inr cp, w1)
          /\ returncode cp = 0)
    /\ (SSHConnectionResult.success r = true ->
        SSHConnectionResult.error_message r = None
        /\ SSHConnectionResult.auth_method r
           = Some (if PyStr.truthy (SSHCredentials.password creds) then "password" else "key"))
    /\ (SSHConnectionResult.success r = false ->
        SSHConnectionResult.auth_method r = None
        /\ exists msg, SSHConnectionResult.error_message r = Some msg).
Proof.
  intros E pool host creds w.
  destruct (time_time E w) as [t0 w0] eqn:Ht0. simpl snd.
  destruct (ssh_argv pool host creds "exit") as [e|argv] eqn:Hargv.
  - rewrite (test_connection_no_argv _ _ _ _ _ _ _ Ht0 Hargv).
    do 2 eexists. split; [reflexivity|]. simpl. split; [reflexivity|].
    split; [|split; [discriminate | eauto]].
    split; [discriminate|]. intros (argv & cp & w1 & H & _). discriminate H.
  - destruct (subprocess_run E argv (Some (connection_timeout pool)) w0)
      as [[e|cp] w1] eqn:Hrun.
    + rewrite (test_connection_raised _ _ _ _ _ _ _ _ _ Ht0 Hargv Hrun).
      do 2 eexists. split; [reflexivity|]. simpl. split; [reflexivity|].
      split; [|split; [discriminate | eauto]].
      split; [discriminate|]. intros (argv' & cp & w2 & H & Hr & _).
      inversion H; subst argv'. rewrite Hrun in Hr. discriminate Hr.
    + destruct (time_time E w1) as [t1 w2] eqn:Ht1.
      rewrite (test_connection_completed _ _ _ _ _ _ _ _ _ _ _ Ht0 Hargv Hrun Ht1).
      destruct (returncode cp =? 0) eqn:Hrc;
        do 2 eexists; (split; [reflexivity|]); simpl; (split; [reflexivity|]).
      * apply Z.eqb_eq in Hrc.
        split; [|split; [auto | discriminate]].
        split; [|reflexivity]. intros _. exists argv, cp, w1. auto.
      * apply Z.eqb_neq in Hrc.
        split; [|split; [discriminate | eauto]].
        split; [discriminate|]. intros (argv' & cp' & w3 & H & Hr & Hz).
        inversion H; subst argv'. rewrite Hrun in Hr. inversion Hr; subst. contradiction.
Qed.

(** ** The argument vector *)

(** X2. For credentials the constructor accepted, the argument vector can
    always be built: it ends with the remote command as one argument, names
    the target as [username@host], turns prompts and host-key questions off
    and carries the pool's connection timeout. It goes through [sshpass] with
    the password when the password is truthy, and otherwise calls [ssh] with
    the key path, which is then present and not empty. *)
Theorem validated_credentials_give_argv :
  forall pool host username password private_key_path port c remote_command,
    new_SSHCredentials username password private_key_path port = inr c ->
    exists argv,
      ssh_argv pool host c remote_command = inr argv
      /\ last argv "" = remote_command
      /\ In (username ++ "@" ++ host) argv
      /\ In "BatchMode=yes" argv
      /\ In "StrictHostKeyChecking=no" argv
      /\ In ("ConnectTimeout=" ++ PyStr.str_int (connection_timeout pool)) argv
      /\ (PyStr.truthy password = true ->
          exists p, password = Some p /\ firstn 4 argv = ["sshpass"; "-p"; p; "ssh"])
      /\ (PyStr.truthy password = false ->
          exists k, private_key_path = Some k /\ k <> ""
                    /\ hd "" argv = "ssh" /\ nth 7 argv "" = "-i" /\ nth 8 argv "" = k).
Proof.
  intros pool host u p k port c cmd Hc.
  unfold new_SSHCredentials, __post_init__ in Hc. simpl in Hc.
  destruct (PyStr.truthy p) eqn:Hp; simpl in Hc.
  - inversion Hc; subst c. unfold ssh_argv. simpl.
    destruct p as [pw|]; [|discriminate Hp]. simpl in Hp.
    destruct (pw =? "")%string; [discriminate Hp|].
    eexists. split; [reflexivity|]. simpl.
    repeat split; auto 20. 
    + intros _. exists pw. auto.
    + discriminate.
  - destruct (PyStr.truthy k) eqn:Hk; simpl in Hc; [|discriminate Hc].
    inversion Hc; subst c. unfold ssh_argv. simpl.
    destruct k as [key|]; [|discriminate Hk]. simpl in Hk.
    assert (Hne : key <> "").
    { intros ->. discriminate Hk. }
    destruct p as [pw|]; simpl in Hp;
      [destruct (pw =? "")%string eqn:Hpw; [|discriminate Hp]|];
      (eexists; split; [reflexivity|]; simpl; repeat split; auto 20;
       [discriminate | intros _; exists key; auto]).
Qed.

Lemma validated_credentials_give_argv_witness :
  exists argv,
    ssh_argv default_pool "10.0.0.1" Sim.pi_password "uptime" = inr argv
    /\ last argv "" = "uptime"
    /\ In "pi@10.0.0.1" argv.
Proof.
  destruct (validated_credentials_give_argv default_pool "10.0.0.1" "pi" (Some "raspberry")
              None None Sim.pi_password "uptime" eq_refl)
    as (argv & Hargv & Hlast & Htarget & _).
  exists argv. auto.
Defined.

(** ** Dictionaries keyed by the addresses of a configuration *)

Section AddressFacts.

Lemma truthy_some (o : option string) :
  PyStr.truthy o = true -> o = Some (get_default o "") /\ get_default o "" <> "".
Proof.
  destruct o as [s|]; simpl; [|discriminate].
  intros H. split; [reflexivity|]. intros ->. discriminate H.
Qed.

Lemma in_addresses (items : list (string * NodeConfig.t)) (h : string) :
  In h (addresses items) <->
  exists name node, In (name, node) items /\ NodeConfig.ip node = Some h /\ h <> "".
Proof.
  unfold addresses. rewrite in_flat_map. split.
  - intros ([name node] & Hin & Hh). simpl in Hh.
    destruct (PyStr.truthy (NodeConfig.ip node)) eqn:Hip; [|destruct Hh].
    destruct Hh as [<-|[]]. destruct (truthy_some _ Hip) as [Hs Hne].
    exists name, node. auto.
  - intros (name & node & Hin & Hip & Hne). exists (name, node). split; [exact Hin|].
    simpl. rewrite Hip. simpl. destruct (h =? "")%string eqn:Hh.
    + apply String.eqb_eq in Hh. contradiction.
    + simpl. now left.
Qed.

Lemma addresses_length (items : list (string * NodeConfig.t)) :
  (length (addresses items) <= length items)%nat.
Proof.
  induction items as [|[name node] r IH]; simpl; [lia|].
  destruct (PyStr.truthy (NodeConfig.ip node)); simpl; lia.
Qed.

Lemma in_keys_set {V : Type} (k h : string) (v : V) (d : Dict.t V) :
  In h (Dict.keys (Dict.set k v d)) <-> h = k \/ In h (Dict.keys d).
Proof.
  destruct (in_dec string_dec k (Dict.keys d)) as [Hin|Hn].
  - rewrite DictFacts.keys_set_old by assumption. split; [auto|].
    intros [->|H]; assumption.
  - rewrite DictFacts.keys_set_new by assumption. rewrite in_app_iff. simpl.
    split; [intros [H|[H|[]]]; auto | intros [H|H]; auto].
Qed.

End AddressFacts.

Section CredentialFold.

Lemma credentials_fold_wf (items : list (string * NodeConfig.t)) :
  forall acc, Dict.wf acc -> Dict.wf (fold_left credentials_step items acc).
Proof.
  induction items as [|x r IH]; intros acc Hacc; simpl; [exact Hacc|].
  apply IH. unfold credentials_step.
  destruct (PyStr.truthy (NodeConfig.ip (snd x))); [now apply DictFacts.wf_set | exact Hacc].
Qed.

Lemma credentials_fold_keys (items : list (string * NodeConfig.t)) (h : string) :
  forall acc,
    In h (Dict.keys (fold_left credentials_step items acc)) <->
    In h (Dict.keys acc) \/ In h (addresses items).
Proof.
  induction items as [|[name node] r IH]; intros acc; simpl; [tauto|].
  rewrite IH. unfold credentials_step. simpl snd.
  destruct (PyStr.truthy (NodeConfig.ip node)); simpl.
  - rewrite in_keys_set. intuition congruence.
  - tauto.
Qed.

Lemma credentials_fold_get (items : list (string * NodeConfig.t)) (h : string)
    (c : SSHCredentials.t) :
  forall acc,
    Dict.get h (fold_left credentials_step items acc) = Some c ->
    Dict.get h acc = Some c
    \/ exists name node, In (name, node) items /\ NodeConfig.ip node = Some h
                         /\ c = node_credentials node.
Proof.
  induction items as [|[name node] r IH]; intros acc Hget; simpl in *; [now left|].
  destruct (IH _ Hget) as [Hacc|(n & nd & Hin & Hip & Hc)].
  - unfold credentials_step in Hacc. simpl snd in Hacc.
    destruct (PyStr.truthy (NodeConfig.ip node)) eqn:Htr; [|now left].
    destruct (string_dec (get_default (NodeConfig.ip node) "") h) as [Heq|Hne].
    + subst h. rewrite DictFacts.get_set_same in Hacc. inversion Hacc; subst c.
      right. exists name, node. split; [now left|]. split; [|reflexivity].
      apply (truthy_some _ Htr).
    + rewrite DictFacts.get_set_other in Hacc by assumption. now left.
  - right. exists n, nd. auto.
Qed.

End CredentialFold.

Lemma new_SSHCredentials_cases (username : string) (password private_key_path : option string)
    (port : option Z) :
  new_SSHCredentials username password private_key_path port
  = if PyStr.truthy password || PyStr.truthy private_key_path
    then inr (SSHCredentials.mk username password private_key_path (get_default port 22))
    else inl (Exn ValueError "Either password or private_key_path must be provided").
Proof.
  unfold new_SSHCredentials, __post_init__. simpl.
  destruct (PyStr.truthy password), (PyStr.truthy private_key_path), port; reflexivity.
Qed.

Section ValidateFacts.
Context {E : Env}.

Lemma collect_hosts_credentials_fold (cluster_config : ClusterConfig) (w : World E) :
  (forall name node,
      In (name, node) (get_default (nodes cluster_config) []) ->
      PyStr.truthy (NodeConfig.ip node) = true ->
      PyStr.truthy (NodeConfig.password node) || PyStr.truthy (NodeConfig.ssh_key_path node)
      = true) ->
  collect_hosts_credentials cluster_config w
  = (inr (fold_left credentials_step (get_default (nodes cluster_config) []) []), w).
Proof.
  intros Hauth. unfold collect_hosts_credentials.
  apply for_each_pure. intros s [name node] w' Hin. unfold credentials_step. simpl snd.
  destruct (PyStr.truthy (NodeConfig.ip node)) eqn:Hip; [|reflexivity].
  unfold new_SSHCredentials, __post_init__, bind, lift, ret, node_credentials. simpl.
  specialize (Hauth name node Hin Hip). apply orb_true_iff in Hauth.
  destruct Hauth as [H|H]; rewrite H; simpl; try reflexivity.
  destruct (PyStr.truthy (NodeConfig.password node)); reflexivity.
Qed.

(** A node with an address and neither password nor key path stops the loop
    with the constructor's exception, in the world the loop started in. *)
Lemma collect_hosts_credentials_raises (items : list (string * NodeConfig.t)) :
  forall (acc : Dict.t SSHCredentials.t) (w : World E) name node,
    In (name, node) items ->
    PyStr.truthy (NodeConfig.ip node) = true ->
    PyStr.truthy (NodeConfig.password node) = false ->
    PyStr.truthy (NodeConfig.ssh_key_path node) = false ->
    for_each items
      (fun hosts_credentials '(node_name, node_config) =>
         let host := NodeConfig.ip node_config in
         let username := get_default (NodeConfig.username node_config) "pi" in
         let password := NodeConfig.password node_config in
         let key_path := NodeConfig.ssh_key_path node_config in
         if PyStr.truthy host then
           credentials <- lift (new_SSHCredentials username password key_path None) ;;
           ret (Dict.set (get_default host "") credentials hosts_credentials)
         else ret hosts_credentials) acc w
    = (inl (Exn ValueError "Either password or private_key_path must be provided"), w).
Proof.
  induction items as [|[name0 node0] rest IH]; intros acc w name node Hin Hip Hpw Hkey;
    [destruct Hin|].
  simpl for_each. cbv zeta.
  destruct (PyStr.truthy (NodeConfig.ip node0)) eqn:Hip0.
  - destruct (PyStr.truthy (NodeConfig.password node0)
              || PyStr.truthy (NodeConfig.ssh_key_path node0)) eqn:Hauth0.
    + destruct Hin as [Heq|Hin].
      { inversion Heq; subst. rewrite Hpw, Hkey in Hauth0. discriminate Hauth0. }
      erewrite bind_inr; [exact (IH _ w name node Hin Hip Hpw Hkey)|].
      rewrite new_SSHCredentials_cases, Hauth0. reflexivity.
    + apply bind_inl. apply bind_inl.
      rewrite new_SSHCredentials_cases, Hauth0. reflexivity.
  - destruct Hin as [Heq|Hin]; [inversion Heq; subst; congruence|].
    erewrite bind_inr by reflexivity. exact (IH _ w name node Hin Hip Hpw Hkey).
Qed.

End ValidateFacts.

(** ** The connectivity check *)

Section ValidateRun.
Context {E : Env}.

(** Every entry [test_multiple_connections] returns is keyed by the host its
    record names. *)
Lemma test_multiple_connections_hosts pool hosts_credentials max_workers
    (w : World E) results w' :
  Dict.wf hosts_credentials ->
  test_multiple_connections pool hosts_credentials max_workers w = (inr results, w') ->
  forall host r, In (host, r) results -> SSHConnectionResult.host r = host.
Proof.
  intros Hwf Hrun host r Hin. unfold test_multiple_connections in Hrun.
  destruct (test_multiple_connections_with_complete (test_connection pool) hosts_credentials
              max_workers w Hwf) as (results' & w'' & Hrun' & Hkeys & Hget).
  rewrite Hrun in Hrun'. inversion Hrun'; subst results' w''. clear Hrun'.
  assert (Hwfr : Dict.wf results).
  { unfold Dict.wf. apply (Permutation_NoDup (Permutation_sym Hkeys)). exact Hwf. }
  assert (Hk : In host (Dict.keys hosts_credentials)).
  { apply (Permutation_in _ Hkeys). change host with (fst (host, r)). now apply in_map. }
  apply in_map_iff in Hk. destruct Hk as ([host' c] & Hh & Hc). simpl in Hh. subst host'.
  destruct (Hget host c Hc) as (o & w1 & w2 & Ho & Hr).
  destruct (test_connection_returns pool host c w1) as (r' & w3 & Hr' & Hhost & _).
  rewrite Hr' in Ho. inversion Ho; subst o w3.
  rewrite (DictFacts.get_In _ _ _ Hwfr Hin) in Hr. inversion Hr; subst r'.
  exact Hhost.
Qed.

(** The check, run to its end: the probes of the collected credentials and
    the summary of their results. *)
Lemma validate_cluster_connectivity_run (self : SSHManager) (cluster_config : ClusterConfig)
    (w : World E) :
  (forall name node,
      In (name, node) (get_default (nodes cluster_config) []) ->
      PyStr.truthy (NodeConfig.ip node) = true ->
      PyStr.truthy (NodeConfig.password node) || PyStr.truthy (NodeConfig.ssh_key_path node)
      = true) ->
  exists results w',
    test_multiple_connections (pool self)
      (fold_left credentials_step (get_default (nodes cluster_config) []) []) 5 w
    = (inr results, w')
    /\ Dict.wf results
    /\ Permutation (Dict.keys results)
         (Dict.keys (fold_left credentials_step (get_default (nodes cluster_config) []) []))
    /\ validate_cluster_connectivity self cluster_config w = (inr (summarize results), w').
Proof.
  intros Hauth. unfold validate_cluster_connectivity.
  set (hc := fold_left credentials_step (get_default (nodes cluster_config) []) []).
  assert (Hwf : Dict.wf hc) by (apply credentials_fold_wf; constructor).
  destruct (test_multiple_connections_with_complete (test_connection (pool self)) hc
              5%positive w Hwf) as (results & w' & Hrun & Hkeys & _).
  change (test_multiple_connections (pool self) hc 5 w = (inr results, w')) in Hrun.
  exists results, w'. split; [exact Hrun|].
  assert (Hwfr : Dict.wf results).
  { unfold Dict.wf. apply (Permutation_NoDup (Permutation_sym Hkeys)). exact Hwf. }
  split; [exact Hwfr|]. split; [exact Hkeys|].
  erewrite bind_inr by (apply collect_hosts_credentials_fold; exact Hauth).
  fold hc. erewrite bind_inr by exact Hrun.
  unfold summarize. destruct results as [|x rest] eqn:Hres.
  - erewrite bind_inr by reflexivity. reflexivity.
  - rewrite <- Hres in *.
    assert (Hnz : (Dict.len results =? 0) = false).
    { apply Z.eqb_neq. rewrite Hres. unfold Dict.len. simpl. lia. }
    erewrite bind_inr; [reflexivity|].
    unfold truediv. rewrite Hnz. erewrite bind_inr by reflexivity. reflexivity.
Qed.

End ValidateRun.

Lemma partition_keys {V : Type} (p : string * V -> bool) (d : list (string * V)) :
  Permutation (map fst (filter p d) ++ map fst (filter (fun x => negb (p x)) d)) (map fst d).
Proof.
  induction d as [|x r IH]; simpl; [constructor|].
  destruct (p x); simpl.
  - now constructor.
  - apply Permutation_sym, Permutation_cons_app, Permutation_sym, IH.
Qed.

Lemma rate_bounds (s t : Z) :
  0 <= s <= t -> 0 < t -> (0 <= inject_Z s / inject_Z t * 100 <= 100)%Q.
Proof.
  intros [Hs Hst] Ht. destruct t as [|p|p]; try lia.
  unfold Qle, Qdiv, Qmult, Qinv, inject_Z. simpl. split; nia.
Qed.

Lemma rate_full (t : Z) : 0 < t -> (inject_Z t / inject_Z t * 100 == 100)%Q.
Proof.
  intros Ht. field. intros H. unfold Qeq, inject_Z in H. simpl in H. lia.
Qed.

(** X3. A node with an address and neither a truthy password nor a truthy key
    path makes [validate_cluster_connectivity] end in the constructor's
    [ValueError] in the world it started in: no probe has been run and the
    clock has not been read. *)
Theorem connectivity_check_rejects_before_probing :
  forall (E : Env) self cluster_config (w : World E) name node,
    In (name, node) (get_default (nodes cluster_config) []) ->
    PyStr.truthy (NodeConfig.ip node) = true ->
    PyStr.truthy (NodeConfig.password node) = false ->
    PyStr.truthy (NodeConfig.ssh_key_path node) = false ->
    validate_cluster_connectivity self cluster_config w
    = (inl (Exn ValueError "Either password or private_key_path must be provided"), w).
Proof.
  intros E self cfg w name node Hin Hip Hpw Hkey. unfold validate_cluster_connectivity.
  apply bind_inl. unfold collect_hosts_credentials.
  exact (collect_hosts_credentials_raises _ [] w name node Hin Hip Hpw Hkey).
Qed.

Lemma connectivity_check_rejects_before_probing_witness :
  validate_cluster_connectivity (E := Sim.env) Sim.manager
    {| nodes := Some [("node1", Sim.node (Some "10.0.0.1") (Some "raspberry") None);
                      ("node2", Sim.node (Some "10.0.0.2") None (Some ""))] |} Sim.w0
  = (inl (Exn ValueError "Either password or private_key_path must be provided"), Sim.w0).
Proof.
  apply (connectivity_check_rejects_before_probing Sim.env Sim.manager _ Sim.w0 "node2"
           (Sim.node (Some "10.0.0.2") None (Some ""))); try reflexivity.
  simpl. auto.
Defined.

(** X4. When the check returns, the detailed results are keyed by the
    addresses of the configuration: the keys are distinct and are exactly the
    truthy [ip] entries of the nodes, so a node without an address has no
    entry and nodes sharing an address share one; every entry's record names
    the host it is stored under; and the total is at most the number of
    nodes. *)
Theorem connectivity_results_keyed_by_address :
  forall (E : Env) self cluster_config (w : World E),
    (forall name node,
        In (name, node) (get_default (nodes cluster_config) []) ->
        PyStr.truthy (NodeConfig.ip node) = true ->
        PyStr.truthy (NodeConfig.password node) || PyStr.truthy (NodeConfig.ssh_key_path node)
        = true) ->
    exists summary w',
      validate_cluster_connectivity self cluster_config w = (inr summary, w')
      /\ NoDup (Dict.keys (detailed_results summary))
      /\ (forall host,
            In host (Dict.keys (detailed_results summary)) <->
            exists name node,
              In (name, node) (get_default (nodes cluster_config) [])
              /\ NodeConfig.ip node = Some host /\ host <> "")
      /\ (forall host r,
            Dict.get host (detailed_results summary) = Some r ->
            SSHConnectionResult.host r = host)
      /\ total_nodes summary <= Z.of_nat (length (get_default (nodes cluster_config) [])).
Proof.
  intros E self cfg w Hauth.
  destruct (validate_cluster_connectivity_run self cfg w Hauth)
    as (results & w' & Hrun & Hwfr & Hkeys & Hval).
  exists (summarize results), w'. split; [exact Hval|]. simpl.
  assert (Hset : forall host, In host (Dict.keys results) <->
                              In host (addresses (get_default (nodes cfg) []))).
  { intros host. split; intros H.
    - apply (Permutation_in _ Hkeys) in H. apply credentials_fold_keys in H.
      destruct H as [[]|H]. exact H.
    - apply (Permutation_in _ (Permutation_sym Hkeys)). apply credentials_fold_keys. now right. }
  split; [exact Hwfr|]. split; [|split].
  - intros host. rewrite Hset. apply in_addresses.
  - intros host r Hget.
    apply (test_multiple_connections_hosts _ _ _ _ _ _
             (credentials_fold_wf _ [] (NoDup_nil _)) Hrun).
    now apply DictFacts.get_Some_In.
  - unfold Dict.len.
    assert (Hlen : (length (Dict.keys results)
                    <= length (addresses (get_default (nodes cfg) [])))%nat).
    { apply NoDup_incl_length; [exact Hwfr|]. intros h Hh. now apply Hset. }
    unfold Dict.keys in Hlen. rewrite length_map in Hlen.
    pose proof (addresses_length (get_default (nodes cfg) [])). lia.
Qed.

Lemma connectivity_results_keyed_by_address_witness :
  exists summary w',
    validate_cluster_connectivity (E := Sim.env) Sim.manager
      {| nodes := Some [("node1", Sim.node (Some "10.0.0.1") (Some "raspberry") None);
                        ("spare", Sim.node None (Some "raspberry") None);
                        ("alias", Sim.node (Some "10.0.0.1") (Some "wrong") None)] |}
      Sim.w0 = (inr summary, w')
    /\ NoDup (Dict.keys (detailed_results summary))
    /\ total_nodes summary <= 3.
Proof.
  destruct (connectivity_results_keyed_by_address Sim.env Sim.manager
              {| nodes := Some [("node1", Sim.node (Some "10.0.0.1") (Some "raspberry") None);
                                ("spare", Sim.node None (Some "raspberry") None);
                                ("alias", Sim.node (Some "10.0.0.1") (Some "wrong") None)] |}
              Sim.w0)
    as (s & w' & Hrun & Hnd & _ & _ & Hlen).
  - intros name node Hin Hip. simpl in Hin.
    destruct Hin as [H|[H|[H|[]]]]; inversion H; subst; reflexivity.
  - exists s, w'. auto.
Defined.

(** X5. When the check returns, the successful and the failed hosts together
    are the keys of the detailed results, each host in exactly one of the two
    lists; the success rate lies between 0 and 100, and it is 100 when there
    are results and none failed. *)
Theorem connectivity_summary_partitions_hosts :
  forall (E : Env) self cluster_config (w : World E),
    (forall name node,
        In (name, node) (get_default (nodes cluster_config) []) ->
        PyStr.truthy (NodeConfig.ip node) = true ->
        PyStr.truthy (NodeConfig.password node) || PyStr.truthy (NodeConfig.ssh_key_path node)
        = true) ->
    exists summary w',
      validate_cluster_connectivity self cluster_config w = (inr summary, w')
      /\ Permutation (successful_hosts summary ++ failed_hosts summary)
           (Dict.keys (detailed_results summary))
      /\ NoDup (successful_hosts summary ++ failed_hosts summary)
      /\ (0 <= success_rate summary <= 100)%Q
      /\ (failed_hosts summary = [] -> total_nodes summary <> 0 ->
          (success_rate summary == 100)%Q).
Proof.
  intros E self cfg w Hauth.
  destruct (validate_cluster_connectivity_run self cfg w Hauth)
    as (results & w' & Hrun & Hwfr & Hkeys & Hval).
  exists (summarize results), w'. split; [exact Hval|].
  unfold summarize. cbn [successful_hosts failed_hosts detailed_results success_rate
                          total_nodes].
  set (ok := fun hr : string * SSHConnectionResult.t => SSHConnectionResult.success (snd hr)).
  pose proof (partition_keys ok results) as Hpart.
  pose proof (filter_length ok results) as Hsum.
  split; [exact Hpart|]. split.
  - apply (Permutation_NoDup (Permutation_sym Hpart)). exact Hwfr.
  - unfold Dict.items. split.
    + destruct results as [|x rest] eqn:Hres; [split; discriminate|].
      rewrite <- Hres in *. rewrite length_map. apply rate_bounds.
      * unfold Dict.len. lia.
      * unfold Dict.len. rewrite Hres. simpl. lia.
    + intros Hnone Hnz. destruct results as [|x rest] eqn:Hres; [now elim Hnz|].
      rewrite <- Hres in *. rewrite length_map.
      apply (f_equal (@length string)) in Hnone. rewrite length_map in Hnone.
      simpl in Hnone. unfold ok in Hsum. cbv beta in Hsum. fold ok in Hsum.
      replace (Z.of_nat (length (filter ok results))) with (Dict.len results)
        by (unfold Dict.len; lia).
      apply rate_full. unfold Dict.len. rewrite Hres. simpl. lia.
Qed.

Lemma connectivity_summary_partitions_hosts_witness :
  exists summary w',
    validate_cluster_connectivity (E := Sim.env) Sim.manager
      {| nodes := Some [("node1", Sim.node (Some "10.0.0.1") (Some "raspberry") None);
                        ("node2", Sim.node (Some "10.0.0.2") (Some "raspberry") None)] |}
      Sim.w0 = (inr summary, w')
    /\ (0 <= success_rate summary <= 100)%Q.
Proof.
  destruct (connectivity_summary_partitions_hosts Sim.env Sim.manager
              {| nodes := Some [("node1", Sim.node (Some "10.0.0.1") (Some "raspberry") None);
                                ("node2", Sim.node (Some "10.0.0.2") (Some "raspberry") None)] |}
              Sim.w0)
    as (s & w' & Hrun & _ & _ & Hrate & _).
  - intros name node Hin _. simpl in Hin.
    destruct Hin as [H|[H|[]]]; inversion H; reflexivity.
  - exists s, w'. auto.
Defined.

(** ** Key distribution *)

Section SetupRun.
Context {E : Env}.

Lemma deploy_to_nodes_returns (self : SSHManager) (public_key : string)
    (items : list (string * NodeConfig.t)) :
  forall (results : Dict.t bool) (w : World E),
    (forall name node, In (name, node) items ->
       PyStr.truthy (NodeConfig.ip node) = true ->
       PyStr.truthy (NodeConfig.password node) = true) ->
    Dict.wf results ->
    exists results' w',
      deploy_to_nodes self public_key items results w = (inr results', w')
      /\ Dict.wf results'
      /\ (forall h, In h (Dict.keys results') <->
                    In h (Dict.keys results) \/ In h (addresses items))
      /\ (forall h v, Dict.get h results' = Some v ->
            Dict.get h results = Some v
            \/ exists name node r (wa wb : World E),
                 In (name, node) items /\ NodeConfig.ip node = Some h
                 /\ execute_command (pool self) h (deploy_command public_key)
                      (password_credentials node) 60 wa = (inr r, wb)
                 /\ v = SSHCommandResult.success r)
      /\ (addresses items = [] -> results' = results /\ w' = w).
Proof.
  induction items as [|[name0 node0] rest IH]; intros results w Hpw Hwf.
  - exists results, w. split; [reflexivity|]. split; [exact Hwf|].
    split; [simpl; tauto|]. split; [auto | auto].
  - unfold deploy_to_nodes in *. simpl for_each.
    assert (Hrest : forall name node, In (name, node) rest ->
                      PyStr.truthy (NodeConfig.ip node) = true ->
                      PyStr.truthy (NodeConfig.password node) = true).
    { intros name node Hin. apply (Hpw name node). now right. }
    destruct (PyStr.truthy (NodeConfig.ip node0)) eqn:Hip0; simpl negb; cbv iota.
    + rewrite new_SSHCredentials_password, (Hpw name0 node0 (or_introl eq_refl) Hip0).
      set (h0 := get_default (NodeConfig.ip node0) "").
      destruct (execute_command_returns (pool self) h0 (deploy_command public_key)
                  (password_credentials node0) 60 w) as (r & w1 & Hr & _).
      erewrite bind_inr; cycle 1.
      { erewrite bind_inr by reflexivity. erewrite bind_inr by exact Hr. reflexivity. }
      destruct (IH (Dict.set h0 (SSHCommandResult.success r) results) w1 Hrest
                  (DictFacts.wf_set _ _ _ Hwf))
        as (results' & w' & Hrun & Hwf' & Hkeys & Hvals & _).
      exists results', w'. split; [exact Hrun|]. split; [exact Hwf'|].
      destruct (truthy_some _ Hip0) as [Hsome Hne]. fold h0 in Hsome, Hne.
      split; [|split].
      * intros h. rewrite Hkeys, in_keys_set. simpl. rewrite Hip0. simpl. fold h0.
        intuition congruence.
      * intros h v Hget. destruct (Hvals h v Hget) as [Hacc|(n & nd & r' & wa & wb & Hin & H)].
        -- destruct (string_dec h0 h) as [Heq|Hneq].
           ++ subst h. rewrite DictFacts.get_set_same in Hacc. inversion Hacc; subst v.
              right. exists name0, node0, r, w, w1. split; [now left|]. auto.
           ++ rewrite DictFacts.get_set_other in Hacc by assumption. now left.
        -- right. exists n, nd, r', wa, wb. split; [now right | exact H].
      * simpl. rewrite Hip0. discriminate.
    + erewrite bind_inr by reflexivity.
      destruct (IH results w Hrest Hwf) as (results' & w' & Hrun & Hwf' & Hkeys & Hvals & Hnone).
      exists results', w'. split; [exact Hrun|]. split; [exact Hwf'|].
      split; [|split].
      * intros h. rewrite Hkeys. simpl. rewrite Hip0. simpl. tauto.
      * intros h v Hget. destruct (Hvals h v Hget) as [Hacc|(n & nd & r' & wa & wb & Hin & H)];
          [now left|].
        right. exists n, nd, r', wa, wb. split; [now right | exact H].
      * simpl. rewrite Hip0. simpl. exact Hnone.
Qed.

Lemma load_public_key_existing (key_path : string) (w : World E) :
  path_exists E (expanduser E key_path) w = true ->
  load_public_key key_path w
  = match read_text E (with_suffix_pub E (expanduser E key_path)) w with
    | (inr text, w') => (inr (PyStr.strip text), w')
    | (inl e, w') => (inl e, w')
    end.
Proof.
  intros Hex. unfold load_public_key, bind, perform, ret. rewrite Hex. simpl.
  destruct (read_text E (with_suffix_pub E (expanduser E key_path)) w) as [[e|t] w'];
    reflexivity.
Qed.

Lemma load_public_key_keygen_fails (key_path : string) (w : World E) outcome w1 :
  path_exists E (expanduser E key_path) w = false ->
  subprocess_run E (keygen_argv (expanduser E key_path)) None w = (outcome, w1) ->
  match outcome with
  | inl _ => True
  | inr cp => returncode cp <> 0
  end ->
  exists e,
    load_public_key key_path w = (inl e, w1)
    /\ match outcome with
       | inl e' => e = e'
       | inr _ => exn_class_of e = CalledProcessError
       end.
Proof.
  intros Hex Hrun Hfail. unfold load_public_key, bind, perform, ret, raise.
  rewrite Hex. simpl. rewrite Hrun.
  destruct outcome as [e|cp].
  - exists e. auto.
  - apply Z.eqb_neq in Hfail. rewrite Hfail. eexists. split; reflexivity.
Qed.

End SetupRun.

(** X6. [setup_ssh_keys] generates a key pair only when the private key file
    is missing. With the file present the call is the reading of the public
    key followed by the deployment loop; with the file missing and
    [ssh-keygen] failing, by a non-zero exit status ([CalledProcessError]) or
    by an exception of its own, the call ends in that exception in the world
    [ssh-keygen] left: the public key is not read and no host is contacted. *)
Theorem key_pair_generated_only_when_missing :
  forall (E : Env) self cluster_config key_path (w : World E),
    (path_exists E (expanduser E key_path) w = true ->
     setup_ssh_keys self cluster_config key_path w
     = match read_text E (with_suffix_pub E (expanduser E key_path)) w with
       | (inr text, w') =>
           deploy_to_nodes self (PyStr.strip text)
             (Dict.items (get_default (nodes cluster_config) [])) [] w'
       | (inl e, w') => (inl e, w')
       end)
    /\ (path_exists E (expanduser E key_path) w = false ->
        forall outcome w1,
          subprocess_run E (keygen_argv (expanduser E key_path)) None w = (outcome, w1) ->
          match outcome with
          | inl _ => True
          | inr cp => returncode cp <> 0
          end ->
          exists e,
            setup_ssh_keys self cluster_config key_path w = (inl e, w1)
            /\ match outcome with
               | inl e' => e = e'
               | inr _ => exn_class_of e = CalledProcessError
               end).
Proof.
  intros E self cfg key_path w. split.
  - intros Hex. unfold setup_ssh_keys, bind at 1.
    rewrite (load_public_key_existing key_path w Hex).
    destruct (read_text E (with_suffix_pub E (expanduser E key_path)) w) as [[e|t] w'];
      reflexivity.
  - intros Hex outcome w1 Hrun Hfail.
    destruct (load_public_key_keygen_fails key_path w outcome w1 Hex Hrun Hfail)
      as (e & Hload & He).
    exists e. split; [|exact He]. unfold setup_ssh_keys. now apply bind_inl.
Qed.

Lemma key_pair_generated_only_when_missing_witness :
  setup_ssh_keys (E := Sim.env) Sim.manager
    {| nodes := Some [("node1", Sim.node (Some "10.0.0.1") (Some "raspberry") None)] |}
    "~/.ssh/id_rsa" Sim.w0
  = deploy_to_nodes (E := Sim.env) Sim.manager Sim.public_key
      [("node1", Sim.node (Some "10.0.0.1") (Some "raspberry") None)] [] Sim.w0.
Proof.
  exact (proj1 (key_pair_generated_only_when_missing Sim.env Sim.manager
                  {| nodes := Some [("node1",
                                     Sim.node (Some "10.0.0.1") (Some "raspberry") None)] |}
                  "~/.ssh/id_rsa" Sim.w0) eq_refl).
Defined.

(** X7. When the public key can be loaded and every node that has an address
    has a truthy password, [setup_ssh_keys] returns a mapping whose keys are
    distinct and are exactly the addresses of the configuration, with at most
    as many entries as there are nodes; every value is the success flag of a
    run of the deploy command on that host with the node's user name and
    password; and with no address in the configuration the mapping is empty
    and nothing is run after the key is loaded. *)
Theorem key_distribution_reports_every_address :
  forall (E : Env) self cluster_config key_path (w : World E) public_key w1,
    load_public_key key_path w = (inr public_key, w1) ->
    (forall name node,
        In (name, node) (get_default (nodes cluster_config) []) ->
        PyStr.truthy (NodeConfig.ip node) = true ->
        PyStr.truthy (NodeConfig.password node) = true) ->
    exists results w',
      setup_ssh_keys self cluster_config key_path w = (inr results, w')
      /\ NoDup (Dict.keys results)
      /\ (forall host,
            In host (Dict.keys results) <->
            exists name node,
              In (name, node) (get_default (nodes cluster_config) [])
              /\ NodeConfig.ip node = Some host /\ host <> "")
      /\ (forall host v,
            Dict.get host results = Some v ->
            exists name node r (wa wb : World E),
              In (name, node) (get_default (nodes cluster_config) [])
              /\ NodeConfig.ip node = Some host
              /\ execute_command (pool self) host (deploy_command public_key)
                   (SSHCredentials.mk (get_default (NodeConfig.username node) "pi")
                      (NodeConfig.password node) None 22) 60 wa = (inr r, wb)
              /\ v = SSHCommandResult.success r)
      /\ Dict.len results <= Z.of_nat (length (get_default (nodes cluster_config) []))
      /\ (addresses (get_default (nodes cluster_config) []) = [] ->
          results = [] /\ w' = w1).
Proof.
  intros E self cfg key_path w pk w1 Hload Hpw.
  destruct (deploy_to_nodes_returns self pk (get_default (nodes cfg) []) [] w1 Hpw
              (NoDup_nil _)) as (results & w' & Hrun & Hwf & Hkeys & Hvals & Hnone).
  exists results, w'. split.
  { unfold setup_ssh_keys. erewrite bind_inr by exact Hload. exact Hrun. }
  assert (Hset : forall host, In host (Dict.keys results) <->
                              In host (addresses (get_default (nodes cfg) []))).
  { intros host. rewrite Hkeys. simpl. tauto. }
  split; [exact Hwf|]. split; [|split; [|split]].
  - intros host. rewrite Hset. apply in_addresses.
  - intros host v Hget. destruct (Hvals host v Hget) as [Hacc|H]; [discriminate Hacc|].
    exact H.
  - unfold Dict.len.
    assert (Hlen : (length (Dict.keys results)
                    <= length (addresses (get_default (nodes cfg) [])))%nat).
    { apply NoDup_incl_length; [exact Hwf|]. intros h Hh. now apply Hset. }
    unfold Dict.keys in Hlen. rewrite length_map in Hlen.
    pose proof (addresses_length (get_default (nodes cfg) [])). lia.
  - exact Hnone.
Qed.

Lemma key_distribution_reports_every_address_witness :
  exists results w',
    setup_ssh_keys (E := Sim.env) Sim.manager
      {| nodes := Some [("node1", Sim.node (Some "10.0.0.1") (Some "raspberry") None);
                        ("node2", Sim.node (Some "10.0.0.2") (Some "raspberry") None);
                        ("spare", Sim.node None None None)] |}
      "~/.ssh/id_rsa" Sim.w0 = (inr results, w')
    /\ NoDup (Dict.keys results)
    /\ Dict.len results <= 3.
Proof.
  destruct (key_distribution_reports_every_address Sim.env Sim.manager
              {| nodes := Some [("node1", Sim.node (Some "10.0.0.1") (Some "raspberry") None);
                                ("node2", Sim.node (Some "10.0.0.2") (Some "raspberry") None);
                                ("spare", Sim.node None None None)] |}
              "~/.ssh/id_rsa" Sim.w0 Sim.public_key Sim.w0 eq_refl)
    as (results & w' & Hrun & Hnd & _ & _ & Hlen & _).
  - intros name node Hin Hip. simpl in Hin.
    destruct Hin as [H|[H|[H|[]]]]; inversion H; subst; try reflexivity.
    discriminate Hip.
  - exists results, w'. auto.
Defined.

(** ** The dispatchers with their own workers *)

Section RealWorkers.
Context {E : Env}.

Lemma test_multiple_connections_with_empty
    (worker : string -> SSHCredentials.t -> M E SSHConnectionResult.t)
    (max_workers : positive) (w : World E) :
  test_multiple_connections_with worker [] max_workers w = (inr [], w).
Proof.
  unfold test_multiple_connections_with. simpl for_each.
  erewrite bind_inr by reflexivity. erewrite bind_inr by reflexivity.
  pose proof (as_completed_perm E ((exn + SSHConnectionResult.t) * string) w []) as Hperm.
  apply Permutation_nil in Hperm. rewrite Hperm. reflexivity.
Qed.

Lemma select_credentials_own (credentials_map : Dict.t SSHCredentials.t) (host : string)
    (own : SSHCredentials.t) :
  Dict.get host credentials_map = Some own ->
  select_credentials credentials_map host = inr own.
Proof.
  intros Hget. unfold select_credentials, first_value.
  destruct credentials_map as [|[k v] rest]; [discriminate Hget|].
  simpl Dict.values. cbv iota. now rewrite Hget.
Qed.

End RealWorkers.

(** X8. With the pool's own workers no placeholder record is ever stored:
    [test_multiple_connections] maps every requested host to the record
    [test_connection] returned for that host and its credentials, and
    [execute_parallel_commands], given a non-empty [credentials_map], maps
    every requested host to the record [execute_command] returned for that
    host's command, run with the host's own credentials when it has an entry;
    each record names the host it is stored under and the command requested
    for it. An empty batch of probes returns an empty mapping and leaves the
    world as it was. *)
Theorem dispatchers_store_their_workers_records :
  (forall (E : Env) pool hosts_credentials max_workers (w : World E),
      Dict.wf hosts_credentials ->
      exists results w',
        test_multiple_connections pool hosts_credentials max_workers w = (inr results, w')
        /\ forall host creds, In (host, creds) hosts_credentials ->
             exists r (w1 w2 : World E),
               test_connection pool host creds w1 = (inr r, w2)
               /\ Dict.get host results = Some r
               /\ SSHConnectionResult.host r = host)
  /\ (forall (E : Env) pool hosts_commands credentials_map max_workers timeout (w : World E),
        Dict.wf hosts_commands ->
        credentials_map <> [] ->
        exists results w',
          execute_parallel_commands pool hosts_commands credentials_map max_workers timeout w
          = (inr results, w')
          /\ forall host command, In (host, command) hosts_commands ->
               exists credentials r (w1 w2 : World E),
                 select_credentials credentials_map host = inr credentials
                 /\ (forall own, Dict.get host credentials_map = Some own -> credentials = own)
                 /\ execute_command pool host command credentials timeout w1 = (inr r, w2)
                 /\ Dict.get host results = Some r
                 /\ SSHCommandResult.host r = host
                 /\ SSHCommandResult.command r = command)
  /\ (forall (E : Env) pool max_workers (w : World E),
        test_multiple_connections pool [] max_workers w = (inr [], w)).
Proof.
  split; [|split].
  - intros E pool hc mw w Hwf. unfold test_multiple_connections.
    destruct (test_multiple_connections_with_complete (test_connection pool) hc mw w Hwf)
      as (results & w' & Hrun & _ & Hget).
    exists results, w'. split; [exact Hrun|]. intros host creds Hin.
    destruct (Hget host creds Hin) as (o & w1 & w2 & Ho & Hr).
    destruct (test_connection_returns pool host creds w1) as (r & w3 & Hr' & Hhost & _).
    rewrite Hr' in Ho. inversion Ho; subst o w3.
    exists r, w1, w2. auto.
  - intros E pool hc cm mw timeout w Hwf Hne. unfold execute_parallel_commands.
    destruct (execute_parallel_commands_with_complete (execute_command pool) hc cm mw timeout
                w Hwf Hne) as (results & w' & Hrun & _ & Hget).
    exists results, w'. split; [exact Hrun|]. intros host command Hin.
    destruct (Hget host command Hin) as (c & o & w1 & w2 & Hc & Ho & Hr).
    destruct (execute_command_returns pool host command c timeout w1)
      as (r & w3 & Hr' & Hhost & Hcmd).
    rewrite Hr' in Ho. inversion Ho; subst o w3.
    exists c, r, w1, w2. split; [exact Hc|]. split; [|auto].
    intros own Hown. rewrite (select_credentials_own _ _ _ Hown) in Hc. now inversion Hc.
  - intros E pool mw w. apply test_multiple_connections_with_empty.
Qed.

Lemma dispatchers_store_their_workers_records_witness :
  exists results w',
    execute_parallel_commands (E := Sim.env) default_pool [("10.0.0.1", "exit")]
      [("10.0.0.1", Sim.pi_password)] 5 60 Sim.w0 = (inr results, w')
    /\ exists r, Dict.get "10.0.0.1" results = Some r
                 /\ SSHCommandResult.host r = "10.0.0.1"
                 /\ SSHCommandResult.command r = "exit".
Proof.
  destruct (proj1 (proj2 dispatchers_store_their_workers_records) Sim.env default_pool
              [("10.0.0.1", "exit")] [("10.0.0.1", Sim.pi_password)] 5%positive 60 Sim.w0)
    as (results & w' & Hrun & Hget).
  - repeat constructor. simpl. tauto.
  - discriminate.
  - exists results, w'. split; [exact Hrun|].
    destruct (Hget "10.0.0.1" "exit" (or_introl eq_refl))
      as (c & r & w1 & w2 & _ & _ & _ & Hr & Hh & Hc).
    exists r. auto.
Defined.

(** ** The command line *)

Section CommandLineFacts.
Context {E : Env}.

Lemma keys_set_same_keys {A B : Type} (k : string) (a : A) (b : B)
    (d1 : Dict.t A) (d2 : Dict.t B) :
  Dict.keys d1 = Dict.keys d2 ->
  Dict.keys (Dict.set k a d1) = Dict.keys (Dict.set k b d2).
Proof.
  intros Hk. destruct (in_dec string_dec k (Dict.keys d1)) as [Hin|Hn].
  - rewrite !DictFacts.keys_set_old; congruence.
  - rewrite !DictFacts.keys_set_new; congruence.
Qed.

(** The loop of the [execute] action: it ends in the world it started in,
    either with two dictionaries over the same keys or with the constructor's
    exception. *)
Lemma collect_execute_inputs_loop (args : Namespace.t) (items : list (string * NodeConfig.t)) :
  forall (acc : Dict.t string * Dict.t SSHCredentials.t) (w : World E),
    Dict.keys (fst acc) = Dict.keys (snd acc) ->
    Dict.wf (fst acc) ->
    (forall h c, Dict.get h (fst acc) = Some c -> c = get_default (Namespace.command args) "") ->
    let run :=
      for_each items
        (fun acc '(node_name, node_config) =>
           let host := NodeConfig.ip node_config in
           if PyStr.truthy host then
             let hosts_commands :=
               Dict.set (get_default host "") (get_default (Namespace.command args) "")
                 (fst acc) in
             present <- perform (fun w =>
                          (path_exists E (expanduser E (Namespace.key_path args)) w, w)) ;;
             credentials <- lift (new_SSHCredentials
                                    (get_default (NodeConfig.username node_config) "pi")
                                    (NodeConfig.password node_config)
                                    (if present then Some (Namespace.key_path args) else None)
                                    None) ;;
             ret (hosts_commands, Dict.set (get_default host "") credentials (snd acc))
           else ret acc) acc w in
    (exists hc cm,
        run = (inr (hc, cm), w)
        /\ Dict.keys hc = Dict.keys cm
        /\ Dict.wf hc
        /\ (forall h, In h (Dict.keys hc) <-> In h (Dict.keys (fst acc)) \/ In h (addresses items))
        /\ (forall h c, Dict.get h hc = Some c -> c = get_default (Namespace.command args) ""))
    \/ (run = (inl (Exn ValueError "Either password or private_key_path must be provided"), w)
        /\ exists name node,
             In (name, node) items
             /\ PyStr.truthy (NodeConfig.ip node) = true
             /\ PyStr.truthy (NodeConfig.password node) = false
             /\ (path_exists E (expanduser E (Namespace.key_path args)) w = false
                 \/ Namespace.key_path args = "")).
Proof.
  induction items as [|[name0 node0] rest IH]; intros [hc0 cm0] w Hkeys Hwf Hcmd run;
    subst run; simpl fst in *; simpl snd in *.
  - left. exists hc0, cm0. split; [reflexivity|]. split; [exact Hkeys|]. split; [exact Hwf|].
    split; [simpl; tauto | exact Hcmd].
  - simpl for_each. cbv zeta.
    destruct (PyStr.truthy (NodeConfig.ip node0)) eqn:Hip0.
    + set (h0 := get_default (NodeConfig.ip node0) "").
      set (present := path_exists E (expanduser E (Namespace.key_path args)) w).
      set (key := if present then Some (Namespace.key_path args) else None).
      destruct (PyStr.truthy (NodeConfig.password node0) || PyStr.truthy key) eqn:Hauth.
      * erewrite bind_inr; cycle 1.
        { simpl fst. simpl snd. erewrite bind_inr by reflexivity. fold present. fold key.
          erewrite bind_inr; [reflexivity|].
          unfold lift. rewrite new_SSHCredentials_cases, Hauth. reflexivity. }
        match goal with
        | |- context [for_each rest _ ?a w] =>
            destruct (IH a w) as [(hc & cm & Hrun & Hk & Hw & Hin & Hc)|(Hrun & Hbad)]
        end.
        -- simpl. now apply keys_set_same_keys.
        -- simpl. now apply DictFacts.wf_set.
        -- simpl. intros h c Hget. destruct (string_dec h0 h) as [<-|Hne].
           ++ rewrite DictFacts.get_set_same in Hget. now inversion Hget.
           ++ rewrite DictFacts.get_set_other in Hget by assumption. eauto.
        -- left. exists hc, cm. split; [exact Hrun|]. split; [exact Hk|]. split; [exact Hw|].
           split; [|exact Hc]. intros h. rewrite Hin. simpl fst. rewrite in_keys_set.
           simpl. rewrite Hip0. simpl. fold h0. intuition congruence.
        -- right. split; [exact Hrun|].
           destruct Hbad as (n & nd & Hin & H). exists n, nd. split; [now right | exact H].
      * right. split.
        -- apply bind_inl. simpl fst. simpl snd. erewrite bind_inr by reflexivity.
           fold present. fold key. apply bind_inl.
           unfold lift. rewrite new_SSHCredentials_cases, Hauth. reflexivity.
        -- apply orb_false_iff in Hauth. destruct Hauth as [Hpw Hkey].
           exists name0, node0. split; [now left|]. split; [exact Hip0|]. split; [exact Hpw|].
           unfold key in Hkey. destruct present eqn:Hp; [right | now left].
           simpl in Hkey. apply negb_false_iff in Hkey. now apply String.eqb_eq.
    + erewrite bind_inr by reflexivity.
      destruct (IH (hc0, cm0) w Hkeys Hwf Hcmd)
        as [(hc & cm & Hrun & Hk & Hw & Hin & Hc)|(Hrun & Hbad)].
      * left. exists hc, cm. split; [exact Hrun|]. split; [exact Hk|]. split; [exact Hw|].
        split; [|exact Hc]. intros h. rewrite Hin. simpl. rewrite Hip0. simpl. tauto.
      * right. split; [exact Hrun|].
        destruct Hbad as (n & nd & Hin & H). exists n, nd. split; [now right | exact H].
Qed.

End CommandLineFacts.

(** X9. The [execute] action of the command line. Without a command it
    prints the error, returns 1 and touches nothing. With a command it fills
    [hosts_commands] and [credentials_map] over the same hosts, so the
    dispatcher never lacks a fallback: the call either ends in the
    constructor's [ValueError] in the world it started in, which happens only
    for a node with an address, no truthy password and no usable key file, or
    it returns after printing one block per result, the results being keyed
    by exactly the addresses of the configuration, each for the command given
    on the command line. *)
Theorem cli_execute_has_credentials_for_every_host :
  forall (E : Env) args cluster_config (w : World E),
    Namespace.action args = action_execute ->
    (PyStr.truthy (Namespace.command args) = false ->
     main args cluster_config w = (inr ([printed_command_required], Some 1), w))
    /\ (PyStr.truthy (Namespace.command args) = true ->
        (exists results w',
            main args cluster_config w = (inr (map host_block results, None), w')
            /\ NoDup (Dict.keys results)
            /\ (forall host, In host (Dict.keys results) <->
                  In host (addresses (get_default (nodes cluster_config) [])))
            /\ (forall host r, Dict.get host results = Some r ->
                  SSHCommandResult.host r = host
                  /\ Some (SSHCommandResult.command r) = Namespace.command args))
        \/ (main args cluster_config w
            = (inl (Exn ValueError "Either password or private_key_path must be provided"), w)
            /\ exists name node,
                 In (name, node) (get_default (nodes cluster_config) [])
                 /\ PyStr.truthy (NodeConfig.ip node) = true
                 /\ PyStr.truthy (NodeConfig.password node) = false
                 /\ (path_exists E (expanduser E (Namespace.key_path args)) w = false
                     \/ Namespace.key_path args = ""))).
Proof.
  intros E args cfg w Hact. split.
  - intros Hcmd. unfold main. rewrite Hact, Hcmd. reflexivity.
  - intros Hcmd.
    assert (Hmain : main args cfg w
                    = (inputs <- collect_execute_inputs args cfg ;;
                       results <- execute_parallel_commands default_pool (fst inputs)
                                    (snd inputs) 5 60 ;;
                       ret (map host_block (Dict.items results), None)) w).
    { unfold main. rewrite Hact, Hcmd. reflexivity. }
    rewrite Hmain. clear Hmain.
    destruct (collect_execute_inputs_loop args (get_default (nodes cfg) []) ([], []) w
                eq_refl (NoDup_nil _))
      as [(hc & cm & Hrun & Hk & Hwf & Hin & Hc)|(Hrun & Hbad)].
    { intros h c H. discriminate H. }
    + left. change (collect_execute_inputs args cfg w = (inr (hc, cm), w)) in Hrun.
      erewrite bind_inr by exact Hrun. simpl fst. simpl snd.
      assert (Hok : cm <> [] \/ hc = []).
      { destruct hc as [|x hc']; [now right|]. left. intros ->. discriminate Hk. }
      assert (Hres : exists results w',
                 execute_parallel_commands default_pool hc cm 5 60 w = (inr results, w')
                 /\ Permutation (Dict.keys results) (Dict.keys hc)
                 /\ forall host command, In (host, command) hc ->
                      exists r, Dict.get host results = Some r
                                /\ SSHCommandResult.host r = host
                                /\ SSHCommandResult.command r = command).
      { destruct Hok as [Hne| ->].
        - destruct (execute_parallel_commands_with_complete (execute_command default_pool)
                      hc cm 5%positive 60 w Hwf Hne) as (results & w' & Hr & Hp & Hget).
          exists results, w'. split; [exact Hr|]. split; [exact Hp|].
          intros host command Hhc.
          destruct (Hget host command Hhc) as (c & o & w1 & w2 & _ & Ho & Hg).
          destruct (execute_command_returns default_pool host command c 60 w1)
            as (r & w3 & Hr' & Hhost & Hcm).
          rewrite Hr' in Ho. inversion Ho; subst o w3. exists r. auto.
        - exists [], w. split; [apply execute_parallel_commands_with_empty|].
          split; [constructor|]. intros host command []. }
      destruct Hres as (results & w' & Hr & Hp & Hget).
      exists results, w'. split; [erewrite bind_inr by exact Hr; reflexivity|].
      assert (Hwfr : NoDup (Dict.keys results)).
      { apply (Permutation_NoDup (Permutation_sym Hp)). exact Hwf. }
      split; [exact Hwfr|]. split.
      * intros host. split; intros H.
        -- apply (Permutation_in _ Hp) in H. apply Hin in H. destruct H as [[]|H]. exact H.
        -- apply (Permutation_in _ (Permutation_sym Hp)). apply Hin. now right.
      * intros host r Hg.
        assert (Hh : In host (Dict.keys hc)).
        { apply (Permutation_in _ Hp). apply DictFacts.get_Some_In in Hg.
          change host with (fst (host, r)). now apply in_map. }
        apply in_map_iff in Hh. destruct Hh as ([host' command] & Hf & Hhc).
        simpl in Hf. subst host'.
        destruct (Hget host command Hhc) as (r' & Hg' & Hhost & Hcm).
        rewrite Hg in Hg'. inversion Hg'; subst r'. split; [exact Hhost|].
        rewrite Hcm. rewrite (Hc host command (DictFacts.get_In _ _ _ Hwf Hhc)).
        destruct (Namespace.command args); [reflexivity | discriminate Hcmd].
    + right. split; [|exact Hbad].
      apply bind_inl. exact Hrun.
Qed.

Lemma cli_execute_has_credentials_for_every_host_witness :
  main (E := Sim.env) (Namespace.mk action_execute "cluster.yaml" None "~/.ssh/id_rsa" false)
    {| nodes := Some [("node1", Sim.node (Some "10.0.0.1") (Some "raspberry") None)] |} Sim.w0
  = (inr ([printed_command_required], Some 1), Sim.w0).
Proof.
  exact (proj1 (cli_execute_has_credentials_for_every_host Sim.env
                  (Namespace.mk action_execute "cluster.yaml" None "~/.ssh/id_rsa" false)
                  {| nodes := Some [("node1",
                                     Sim.node (Some "10.0.0.1") (Some "raspberry") None)] |}
                  Sim.w0 eq_refl) eq_refl).
Defined.

(** X10. The [test] action of the command line prints the summary only for a
    configuration without addresses. When every node with an address has a
    password or a key path and at least one node has an address, the hosts
    are probed and the call then ends in the [TypeError] of [json.dumps],
    which cannot encode the result objects kept in [detailed_results]. *)
Theorem cli_test_cannot_print_probe_results :
  forall (E : Env) args cluster_config (w : World E),
    Namespace.action args = action_test ->
    (forall name node,
        In (name, node) (get_default (nodes cluster_config) []) ->
        PyStr.truthy (NodeConfig.ip node) = true ->
        PyStr.truthy (NodeConfig.password node) || PyStr.truthy (NodeConfig.ssh_key_path node)
        = true) ->
    (addresses (get_default (nodes cluster_config) []) = [] ->
     main args cluster_config w = (inr ([printed_summary (summarize [])], None), w))
    /\ (addresses (get_default (nodes cluster_config) []) <> [] ->
        exists results w',
          validate_cluster_connectivity {| pool := default_pool |} cluster_config w
          = (inr (summarize results), w')
          /\ results <> []
          /\ main args cluster_config w
             = (inl (Exn TypeError "Object of type SSHConnectionResult is not JSON serializable"),
                w')).
Proof.
  intros E args cfg w Hact Hauth. unfold main. rewrite Hact.
  destruct (validate_cluster_connectivity_run {| pool := default_pool |} cfg w Hauth)
    as (results & w' & Hrun & Hwfr & Hkeys & Hval).
  assert (Hset : forall host, In host (Dict.keys results) <->
                              In host (addresses (get_default (nodes cfg) []))).
  { intros host. split; intros H.
    - apply (Permutation_in _ Hkeys) in H. apply credentials_fold_keys in H.
      destruct H as [[]|H]. exact H.
    - apply (Permutation_in _ (Permutation_sym Hkeys)). apply credentials_fold_keys. now right. }
  split.
  - intros Hnone.
    assert (Hhc : fold_left credentials_step (get_default (nodes cfg) []) [] = []).
    { destruct (fold_left credentials_step (get_default (nodes cfg) []) []) as [|[h c] r] eqn:Hf;
        [reflexivity|].
      assert (Hin : In h (addresses (get_default (nodes cfg) []))).
      { pose proof (credentials_fold_keys (get_default (nodes cfg) []) h []) as Hk.
        rewrite Hf in Hk. simpl in Hk. destruct (proj1 Hk (or_introl eq_refl)) as [[]|H].
        exact H. }
      rewrite Hnone in Hin. destruct Hin. }
    rewrite Hhc in Hrun. unfold test_multiple_connections in Hrun.
    rewrite test_multiple_connections_with_empty in Hrun. inversion Hrun; subst results w'.
    erewrite bind_inr by exact Hval. reflexivity.
  - intros Hsome. exists results, w'. split; [exact Hval|].
    assert (Hne : results <> []).
    { destruct (addresses (get_default (nodes cfg) [])) as [|h r] eqn:Ha; [now elim Hsome|].
      intros ->. apply (proj2 (Hset h)). now left. }
    split; [exact Hne|].
    erewrite bind_inr by exact Hval. apply bind_inl. unfold lift, json_dumps_summary.
    destruct results as [|x rest]; [now elim Hne | reflexivity].
Qed.

Lemma cli_test_cannot_print_probe_results_witness :
  exists w',
    main (E := Sim.env) (Namespace.mk action_test "cluster.yaml" None "~/.ssh/id_rsa" false)
      {| nodes := Some [("node1", Sim.node (Some "10.0.0.1") (Some "raspberry") None)] |} Sim.w0
    = (inl (Exn TypeError "Object of type SSHConnectionResult is not JSON serializable"), w').
Proof.
  destruct (cli_test_cannot_print_probe_results Sim.env
              (Namespace.mk action_test "cluster.yaml" None "~/.ssh/id_rsa" false)
              {| nodes := Some [("node1",
                                 Sim.node (Some "10.0.0.1") (Some "raspberry") None)] |}
              Sim.w0 eq_refl) as [_ Hsome].
  - intros name node Hin _. simpl in Hin. destruct Hin as [H|[]]. inversion H. reflexivity.
  - destruct Hsome as (results & w' & _ & _ & Hmain); [discriminate|].
    exists w'. exact Hmain.
Defined.

(** ** The integration wrapper *)


(** X12. With the [SSHManager] class of [ssh_manager.py] the wrapper never
    gets a manager: the class takes at most one constructor argument and
    defines neither [execute_on_subset] nor [execute_parallel], so
    [setup_ssh_manager] answers False and leaves the wrapper unchanged for all
    hosts and credentials, and [execute_ssh_commands] answers with a failure
    response, never with results and never with an exception, for every
    state of the wrapper. *)
Theorem wrapper_never_obtains_manager :
  (forall int_of_str (self : Wrapper SSHManager) hosts credentials,
      setup_ssh_manager
        (fun hosts creds => new_SSHManager [VHosts hosts; VCredentials creds])
        int_of_str self hosts credentials = (self, false))
  /\ (forall (E : Env) (Results : Type) (self : Wrapper SSHManager) commands hosts
             (w : World E),
        exists error,
          execute_ssh_commands (Results := Results)
            (fun _ _ _ => raise (SSHManager_has_no "execute_on_subset"))
            (fun _ _ => raise (SSHManager_has_no "execute_parallel"))
            self commands hosts w = (inr (response_error error), w)
          /\ (ssh_manager self = None -> error = "SSH manager not initialized")).
Proof.
  split.
  - intros int_of_str self hosts credentials. unfold setup_ssh_manager.
    destruct (match Dict.get "port" credentials with
              | Some s => int_of_str s
              | None => inr 22
              end) as [e|port]; [reflexivity|].
    destruct (new_SSHCredentials _ _ _ _) as [e|creds]; reflexivity.
  - intros E Results self commands hosts w. unfold execute_ssh_commands.
    destruct (ssh_manager self) as [m|].
    + destruct hosts as [[|h hs]|]; eexists; (split; [reflexivity | discriminate]).
    + eexists. split; [reflexivity | auto].
Qed.
